(** * The lambda handler of the worker: registry, lifecycle, runner counting

    A shallow embedding of [worker/handler/handler.go]: the [HandlerSet]
    registry with its [Get], and the three locked methods of a [Handler],
    [RunStart], [RunFinish] and [StopIfPaused].

    The collaborators of the package (registry manager, sandbox factory,
    sandboxes, pool manager, the handler LRU, the file system and the clock)
    are Go interfaces or other packages.  They are an interface here too: a
    type class [Env] over an abstract world [W], so that every theorem holds
    for every implementation of them.  Each method runs in a small state
    monad over the receiver's fields, the world and a log of the calls made
    to the collaborators; a nil dereference is the monad's failure.

    Every method of [Handler] holds the handler's mutex from entry to exit
    and [Get] holds the set's mutex, so a run of the package is a sequence
    of whole method calls; that sequence is what [Op] and [run] model. *)

From Stdlib Require Import ZArith String List Lia.
From stdpp Require Import base option list gmap strings.

Local Open Scope Z_scope.
Local Open Scope list_scope.

(** ** Machine integers: Go's [int] on the 64-bit targets of the worker *)

Definition int_min : Z := - 2 ^ 63.
Definition int_max : Z := 2 ^ 63 - 1.

Definition wrap_int (z : Z) : Z := (z + 2 ^ 63) mod 2 ^ 64 - 2 ^ 63.

Definition int_add (a b : Z) : Z := wrap_int (a + b).
Definition int_sub (a b : Z) : Z := wrap_int (a - b).

(** The permission bits [0666] that [RunStart] passes to [os.MkdirAll]. *)
Definition perm_0666 : Z := 6 * 64 + 6 * 8 + 6.

(** ** Data *)

(** Modelled from the spec: package [handler/state] is not part of the
    sources at hand; [handler.go] names its four values, and the spec lists
    the same four ([Uninitialized], [Stopped], [Paused], [Running]).  The
    first keeps the spelling the code uses. *)
Inductive HandlerState : Type :=
  | Unitialized
  | Stopped
  | Paused
  | Running.

#[global] Instance HandlerState_eq_dec : EqDecision HandlerState.
Proof. solve_decision. Defined.

(** An error value made by a collaborator, outside this package. *)
Definition collab_err : Type := string.

(** A Go [error] as [RunStart] returns it.  [errors.New] allocates a new
    error value on every call, so the error built inside [RunStart] is equal
    to no error a collaborator hands back, whatever its text: the two origins
    are two constructors. *)
Inductive error : Type :=
  | Foreign (err : collab_err)
  | errors_New (msg : string).

#[global] Instance error_eq_dec : EqDecision error.
Proof. solve_decision. Defined.

(** The result of a call returning [(value, err)] whose value is only read
    when [err == nil]. *)
Inductive result (A : Type) : Type :=
  | ok (a : A)
  | fail (err : collab_err).
Arguments ok {A} a.
Arguments fail {A} err.

(** An [sb.Sandbox] interface value: its dynamic type either implements
    [sb.ContainerSandbox] or not, and it points to one sandbox. *)
Record Sandbox : Type := mkSandbox {
  sb_container : bool;
  sb_id : nat;
}.

#[global] Instance Sandbox_eq_dec : EqDecision Sandbox.
Proof. solve_decision. Defined.

Definition SandboxChannel : Type := string.
Definition Time : Type := Z.

(** A [*Handler]: an index into the heap of handlers. *)
Abbreviation ptr := nat (only parsing).

(** The fields of [Handler].  [mutex] is the atomicity of the methods and
    [hset] is the one set of the model, whose collaborators are [Env] and
    [HandlerSetOpts]. *)
Record Handler : Type := mkHandler {
  name : string;
  sandbox : option Sandbox;
  lastPull : option Time;
  state : HandlerState;
  runners : Z;
  code : list Byte.byte;
  codeDir : string;
}.

Definition set_sandbox (v : option Sandbox) (h : Handler) : Handler :=
  mkHandler (name h) v (lastPull h) (state h) (runners h) (code h) (codeDir h).
Definition set_lastPull (v : option Time) (h : Handler) : Handler :=
  mkHandler (name h) (sandbox h) v (state h) (runners h) (code h) (codeDir h).
Definition set_state (v : HandlerState) (h : Handler) : Handler :=
  mkHandler (name h) (sandbox h) (lastPull h) v (runners h) (code h) (codeDir h).
Definition set_runners (v : Z) (h : Handler) : Handler :=
  mkHandler (name h) (sandbox h) (lastPull h) (state h) v (code h) (codeDir h).
Definition set_codeDir (v : string) (h : Handler) : Handler :=
  mkHandler (name h) (sandbox h) (lastPull h) (state h) (runners h) (code h) v.

(** What a method reads through [h.hset] that is data and not behaviour:
    whether [poolMgr] is non-nil, and [config.Worker_dir]. *)
Record HandlerSetOpts : Type := mkOpts {
  PoolMgr : bool;
  Worker_dir : string;
}.

(** ** The collaborators *)

(** The calls a method makes outside the handler.  The log of a run lists
    them in the order made, each with the error it returned, if any. *)
Inductive Call : Type :=
  | CPull (lambda : string)
  | CMkdirAll (dir : string) (perm : Z)
  | CCreate (code_dir sandbox_dir : string)
  | CState (sb : Sandbox)
  | CStart (sb : Sandbox)
  | CUnpause (sb : Sandbox)
  | CPause (sb : Sandbox)
  | CStop (sb : Sandbox)
  | CChannel (sb : Sandbox)
  | CForkEnter (sb : Sandbox)
  | CLruAdd (h : ptr)
  | CLruRemove (h : ptr)
  | CLog (format lambda : string) (err : collab_err).

#[global] Instance Call_eq_dec : EqDecision Call.
Proof. solve_decision. Defined.

Definition Log : Type := list (Call * option collab_err).

(** The behaviour of the collaborators over a world [W].  [sbFactory_Create]
    returns a sandbox or an error: a factory returning [(nil, nil)] would make
    [RunStart] dereference nil at once.  [sandbox_State] and
    [sandbox_Channel] return both components, since [RunStart] stores or
    forwards the value whatever the error.  The LRU's [Add] and [Remove] act
    on the world; when the LRU stops a handler it calls [StopIfPaused], which
    is a method call of its own in [run]. *)
Class Env (W : Type) : Type := {
  regMgr_Pull : string -> W -> result string * W;
  time_Now : W -> Time * W;
  path_Join : list string -> string;
  os_MkdirAll : string -> Z -> W -> option collab_err * W;
  sbFactory_Create : string -> string -> W -> result Sandbox * W;
  sandbox_State : Sandbox -> W -> (HandlerState * option collab_err) * W;
  sandbox_Start : Sandbox -> W -> option collab_err * W;
  sandbox_Unpause : Sandbox -> W -> option collab_err * W;
  sandbox_Pause : Sandbox -> W -> option collab_err * W;
  sandbox_Stop : Sandbox -> W -> option collab_err * W;
  sandbox_Channel :
    Sandbox -> W -> (option SandboxChannel * option collab_err) * W;
  poolMgr_ForkEnter : Sandbox -> W -> W;
  lru_Add : ptr -> W -> W;
  lru_Remove : ptr -> W -> W;
}.

(** ** The monad of a method call *)

Section Methods.
Context {W : Type} `{!Env W}.

Record Mem : Type := mkMem {
  hd : Handler;
  world : W;
  calls : Log;
}.

(** [None] is a panic (nil dereference). *)
Definition M (A : Type) : Type := Mem -> option (A * Mem).

Definition ret {A} (a : A) : M A := fun m => Some (a, m).

Definition bind {A B} (c : M A) (k : A -> M B) : M B :=
  fun m => match c m with
           | Some (a, m') => k a m'
           | None => None
           end.

Definition panic {A} : M A := fun _ => None.

Definition get_h : M Handler := fun m => Some (hd m, m).

Definition modify (f : Handler -> Handler) : M unit :=
  fun m => Some (tt, mkMem (f (hd m)) (world m) (calls m)).

(** A call of a collaborator: the world moves and the call is logged with
    its error, which [err_of] reads off the result. *)
Definition logged {A} (c : Call) (err_of : A -> option collab_err)
    (f : W -> A * W) : M A :=
  fun m => Some ((f (world m)).1,
                 mkMem (hd m) (f (world m)).2
                       (calls m ++ [(c, err_of (f (world m)).1)])).

Definition err_of_result {A} (r : result A) : option collab_err :=
  match r with
  | ok _ => None
  | fail err => Some err
  end.

(** Calls returning [(value, err)] with the value unread on error, calls
    returning [err], calls returning a value and an error that are both
    read, and calls returning nothing. *)
Definition call_r {A} (c : Call) (f : W -> result A * W) : M (result A) :=
  logged c err_of_result f.

Definition call_e (c : Call) (f : W -> option collab_err * W)
  : M (option collab_err) :=
  logged c id f.

Definition call_p {A} (c : Call) (f : W -> (A * option collab_err) * W)
  : M (A * option collab_err) :=
  logged c snd f.

Definition call_ (c : Call) (f : W -> W) : M unit :=
  fun m => Some (tt, mkMem (hd m) (f (world m)) (calls m ++ [(c, None)])).

Definition now : M Time :=
  fun m => Some ((time_Now (world m)).1,
                 mkMem (hd m) (time_Now (world m)).2 (calls m)).

Definition log_Printf (format lambda : string) (err : collab_err) : M unit :=
  fun m => Some (tt, mkMem (hd m) (world m)
                           (calls m ++ [(CLog format lambda err, None)])).

(** A method call on an interface value that may be nil. *)
Definition deref {A} (o : option A) : M A :=
  match o with
  | Some a => ret a
  | None => panic
  end.

Declare Scope handler_scope.
Delimit Scope handler_scope with handler.
Local Open Scope handler_scope.

Notation "'let*' x ':=' c 'in' k" := (bind c (fun x => k))
  (at level 10, x name, c at level 100, k at level 200).
Notation "c ;; k" := (bind c (fun _ => k))
  (at level 100, k at level 200, right associativity) : handler_scope.

(** Statements of a function returning [R]: [Some r] is [return r], [None]
    falls through to the next statement. *)
Definition Stmt (R : Type) : Type := M (option R).

Definition Return {R} (r : R) : Stmt R := ret (Some r).
Definition skip {R} : Stmt R := ret None.

Definition seq {R} (s1 s2 : Stmt R) : Stmt R :=
  bind s1 (fun o => match o with
                    | Some r => ret (Some r)
                    | None => s2
                    end).

(** A function body; [r0] is returned when the body falls off its end. *)
Definition fn {R} (r0 : R) (body : Stmt R) : M R :=
  bind body (fun o => ret (default r0 o)).

Notation "s1 ;;; s2" := (seq s1 s2)
  (at level 100, s2 at level 200, right associativity).

(** [if err != nil { return nil, err }] *)
Definition check_err {A} (e : option collab_err)
  : Stmt (option A * option error) :=
  match e with
  | Some err => Return (None, Some (Foreign err))
  | None => skip
  end.

(** ** The methods of [Handler] *)

Section Receiver.
Variable hset : HandlerSetOpts.
Variable self : ptr.

Definition RunStart : M (option SandboxChannel * option error) :=
  fn (None, None) (
    (* get code if needed *)
    (let* h := get_h in
     match lastPull h with
     | None =>
         let* r := call_r (CPull (name h)) (regMgr_Pull (name h)) in
         match r with
         | fail err => Return (None, Some (Foreign err))
         | ok codeDir' =>
             let* t := now in
             modify (set_lastPull (Some t));;
             modify (set_codeDir codeDir');;
             skip
         end
     | Some _ => skip
     end) ;;;
    (* create sandbox if needed *)
    (let* h := get_h in
     match sandbox h with
     | None =>
         let sandbox_dir :=
           path_Join [Worker_dir hset; "handlers"; name h; "sandbox"] in
         (let* e := call_e (CMkdirAll sandbox_dir perm_0666)
                            (os_MkdirAll sandbox_dir perm_0666) in
          check_err e) ;;;
         (let* r := call_r (CCreate (codeDir h) sandbox_dir)
                   (sbFactory_Create (codeDir h) sandbox_dir) in
          match r with
          | fail err => Return (None, Some (Foreign err))
          | ok sandbox' =>
              (modify (set_sandbox (Some sandbox'));;
               let* r := call_p (CState sandbox') (sandbox_State sandbox') in
               modify (set_state r.1);;
               check_err r.2) ;;;
              (* newly created sandbox could be in any state; let it run *)
              (let* h := get_h in
               match state h with
               | Stopped =>
                   let* e := call_e (CStart sandbox') (sandbox_Start sandbox') in
                   check_err e
               | Paused =>
                   let* e := call_e (CUnpause sandbox') (sandbox_Unpause sandbox') in
                   check_err e
               | _ => skip
               end) ;;;
              (if PoolMgr hset then
                 let* h := get_h in
                 match sandbox h with
                 | Some containerSB =>
                     if sb_container containerSB then
                       call_ (CForkEnter containerSB)
                             (poolMgr_ForkEnter containerSB);;
                       skip
                     else
                       Return (None, Some (errors_New
                         "forkenter only supported with ContainerSandbox"))
                 | None =>
                     (* the assertion fails on a nil interface *)
                     Return (None, Some (errors_New
                       "forkenter only supported with ContainerSandbox"))
                 end
               else skip)
          end)
     | Some sandbox' =>
         match state h with
         | Paused =>
             (* unpause if paused *)
             (let* e := call_e (CUnpause sandbox') (sandbox_Unpause sandbox') in
              check_err e) ;;;
             (call_ (CLruRemove self) (lru_Remove self);;
              skip)
         | _ => skip
         end
     end) ;;;
    (modify (set_state Running);;
     modify (fun h => set_runners (int_add (runners h) 1) h);;
     let* h := get_h in
     let* sandbox' := deref (sandbox h) in
     let* r := call_p (CChannel sandbox') (sandbox_Channel sandbox') in
     Return (r.1, Foreign <$> r.2))).

Definition RunFinish : M unit :=
  fn tt (
    modify (fun h => set_runners (int_sub (runners h) 1) h);;
    let* h := get_h in
    (* are we the last? *)
    if decide (runners h = 0) then
      let* sandbox' := deref (sandbox h) in
      let* e := call_e (CPause sandbox') (sandbox_Pause sandbox') in
      (match e with
       | Some err => log_Printf "Could not pause %v!  Error: %v\n" (name h) err
       | None => ret tt
       end);;
      modify (set_state Paused);;
      call_ (CLruAdd self) (lru_Add self);;
      skip
    else skip).

Definition StopIfPaused : M unit :=
  fn tt (
    (let* h := get_h in
     if decide (state h ≠ Paused) then Return tt else skip) ;;;
    (let* h := get_h in
     let* sandbox' := deref (sandbox h) in
     let* e := call_e (CUnpause sandbox') (sandbox_Unpause sandbox') in
     match e with
     | Some err =>
         log_Printf "Could not unpause %v to kill it!  Error: %v\n" (name h) err;;
         skip
     | None =>
         let* e := call_e (CStop sandbox') (sandbox_Stop sandbox') in
         match e with
         | Some err =>
             log_Printf "Could not kill %v after unpausing!  Error: %v\n" (name h) err;;
             skip
         | None =>
             modify (set_state Stopped);;
             skip
         end
     end)).

(** [Sandbox] returns the sandbox of this handler. *)
Definition Sandbox_of : M (option Sandbox) :=
  let* h := get_h in ret (sandbox h).

End Receiver.

(** Calls on one handler, results dropped. *)
Inductive Method : Type :=
  | MRunStart
  | MRunFinish
  | MStopIfPaused.

Definition invoke (o : HandlerSetOpts) (self : ptr) (mt : Method) : M unit :=
  match mt with
  | MRunStart => let* _ := RunStart o self in ret tt
  | MRunFinish => RunFinish self
  | MStopIfPaused => StopIfPaused
  end.

Fixpoint invoke_all (o : HandlerSetOpts) (self : ptr) (mts : list Method)
  : M unit :=
  match mts with
  | [] => ret tt
  | mt :: mts' => invoke o self mt ;; invoke_all o self mts'
  end.

(** ** The registry and the heap of handlers *)

(** The state of the whole package: the handlers allocated so far (a
    [*Handler] is an index of [heap]), the map of [HandlerSet], the options
    the set was made with, the world and the log of calls. *)
Record Sys : Type := mkSys {
  opts : HandlerSetOpts;
  heap : list Handler;
  handlers : gmap string ptr;
  sworld : W;
  scalls : Log;
}.

(** [NewHandlerSet] creates an empty [HandlerSet]. *)
Definition NewHandlerSet (o : HandlerSetOpts) (w : W) : Sys :=
  mkSys o [] ∅ w [].

(** [Get] always returns a [Handler], creating one if necessary.  A missing
    key reads as nil from a Go map; the fields the literal does not name
    are zero. *)
Definition Get (name' : string) (s : Sys) : ptr * Sys :=
  match handlers s !! name' with
  | Some handler => (handler, s)
  | None =>
      let handler := length (heap s) in
      (handler,
       mkSys (opts s)
             (heap s ++ [mkHandler name' None None Unitialized 0 [] ""])
             (<[name' := handler]> (handlers s))
             (sworld s) (scalls s))
  end.

(** A method called through a pointer: the receiver is read from the heap
    and written back; a pointer to nothing panics. *)
Definition method {A} (m : M A) (h : ptr) (s : Sys) : option (A * Sys) :=
  match heap s !! h with
  | None => None
  | Some rcv =>
      match m (mkMem rcv (sworld s) (scalls s)) with
      | None => None
      | Some (a, mem) =>
          Some (a, mkSys (opts s) (<[h := hd mem]> (heap s)) (handlers s)
                         (world mem) (calls mem))
      end
  end.

(** ** Runs: sequences of calls on one registry *)

Inductive Op : Type :=
  | OGet (name' : string)
  | ORunStart (h : ptr)
  | ORunFinish (h : ptr)
  | OStopIfPaused (h : ptr).

#[global] Instance Op_eq_dec : EqDecision Op.
Proof. solve_decision. Defined.

Inductive Ret : Type :=
  | RGet (h : ptr)
  | RRunStart (ch : option SandboxChannel) (err : option error)
  | RVoid.

(** One call as an observer sees it: the call, what it returned, and the
    handler it concerns before and after ([None]: not allocated). *)
Record Event : Type := mkEvent {
  ev_op : Op;
  ev_ret : Ret;
  ev_pre : option Handler;
  ev_post : option Handler;
}.

Definition step (o : Op) (s : Sys) : option (Event * Sys) :=
  match o with
  | OGet n =>
      let r := Get n s in
      Some (mkEvent o (RGet r.1) (heap s !! r.1) (heap r.2 !! r.1), r.2)
  | ORunStart h =>
      match method (RunStart (opts s) h) h s with
      | Some (r, s') =>
          Some (mkEvent o (RRunStart r.1 r.2) (heap s !! h) (heap s' !! h), s')
      | None => None
      end
  | ORunFinish h =>
      match method (RunFinish h) h s with
      | Some (_, s') => Some (mkEvent o RVoid (heap s !! h) (heap s' !! h), s')
      | None => None
      end
  | OStopIfPaused h =>
      match method StopIfPaused h s with
      | Some (_, s') => Some (mkEvent o RVoid (heap s !! h) (heap s' !! h), s')
      | None => None
      end
  end.

Fixpoint run (ops : list Op) (s : Sys) : option (list Event * Sys) :=
  match ops with
  | [] => Some ([], s)
  | o :: ops' =>
      match step o s with
      | None => None
      | Some (e, s') =>
          match run ops' s' with
          | None => None
          | Some (es, s'') => Some (e :: es, s'')
          end
      end
  end.

End Methods.

Arguments Mem W : clear implicits.
Arguments M W : clear implicits.
Arguments Sys W : clear implicits.

(** *** The callers' contract *)

(** [RunFinish] is called once for each [RunStart] that returned no error.
    [pend h] counts the calls of [RunStart] on [h] that returned no error
    and have not been finished yet. *)
Definition bump (h : ptr) (d : Z) (pend : ptr -> Z) : ptr -> Z :=
  fun h' => if decide (h' = h) then pend h' + d else pend h'.

Definition pend_after (e : Event) (pend : ptr -> Z) : ptr -> Z :=
  match ev_op e, ev_ret e with
  | ORunStart h, RRunStart _ None => bump h 1 pend
  | ORunFinish h, _ => bump h (-1) pend
  | _, _ => pend
  end.

Definition allowed (e : Event) (pend : ptr -> Z) : bool :=
  match ev_op e with
  | ORunFinish h => bool_decide (0 < pend h)
  | _ => true
  end.

Fixpoint follows_contract (pend : ptr -> Z) (es : list Event) : bool :=
  match es with
  | [] => true
  | e :: es' => allowed e pend && follows_contract (pend_after e pend) es'
  end.

(** A [RunStart] that found no sandbox, returned an error before counting
    a runner, and left [Running] as the state the new sandbox reported. *)
Definition cold_failure_left_Running (e : Event) : bool :=
  match ev_op e, ev_ret e, ev_pre e, ev_post e with
  | ORunStart _, RRunStart _ (Some _), Some pre, Some post =>
      bool_decide (sandbox pre = None) && bool_decide (state post = Running)
      && bool_decide (runners post = runners pre)
  | _, _, _, _ => false
  end.

Definition concerns (h : ptr) (e : Event) : bool :=
  match ev_op e, ev_ret e with
  | OGet _, RGet h' => bool_decide (h' = h)
  | ORunStart h', _ | ORunFinish h', _ | OStopIfPaused h', _ =>
      bool_decide (h' = h)
  | _, _ => false
  end.

(** [pending pend es]: the count after the events [es]. *)
Fixpoint pending (pend : ptr -> Z) (es : list Event) : ptr -> Z :=
  match es with
  | [] => pend
  | e :: es' => pending (pend_after e pend) es'
  end.

(** A [RunStart] that returned an error although it had counted a runner. *)
Definition leak_at (h : ptr) (e : Event) : bool :=
  match ev_op e, ev_ret e, ev_pre e, ev_post e with
  | ORunStart h', RRunStart _ (Some _), Some pre, Some post =>
      bool_decide (h' = h) && negb (bool_decide (runners post = runners pre))
  | _, _, _, _ => false
  end.

Fixpoint leaks (h : ptr) (es : list Event) : Z :=
  match es with
  | [] => 0
  | e :: es' => (if leak_at h e then 1 else 0) + leaks h es'
  end.

(** A [RunStart] on [h] that counted a runner: it returned no error, or it
    returned the error of the channel. *)
Definition counted (h : ptr) (e : Event) : bool :=
  match ev_op e, ev_ret e with
  | ORunStart h', RRunStart _ None => bool_decide (h' = h)
  | _, _ => leak_at h e
  end.

(** Whether the handler [h] stands [Running] without a runner: a cold
    failure that left [Running] on [h] sets the mark, and the next
    [RunStart] on [h] that counts a runner clears it. *)
Definition taint_after (h : ptr) (e : Event) (t : bool) : bool :=
  (concerns h e && cold_failure_left_Running e) || (t && negb (counted h e)).

Fixpoint taint_from (t : bool) (h : ptr) (es : list Event) : bool :=
  match es with
  | [] => t
  | e :: es' => taint_from (taint_after h e t) h es'
  end.

(** The mark of [h] after the events [es] of a run on a new registry. *)
Definition tainted (h : ptr) (es : list Event) : bool :=
  taint_from false h es.

(** What holds of a handler between calls, after at most [n] calls of which
    [pd] are runs started and not finished and [lk] are leaks; [tn] is the
    mark of a cold failure that left [Running] behind. *)
Definition hinv (n pd lk : Z) (tn : bool) (h : Handler) : Prop :=
  runners h = pd + lk /\ 0 <= pd /\ 0 <= lk /\ pd + lk <= n /\
  (0 < runners h -> state h = Running) /\
  (sandbox h = None -> state h = Unitialized) /\
  (sandbox h = None -> runners h = 0) /\
  (sandbox h <> None -> lastPull h <> None) /\
  (tn = false -> state h = Running -> 1 <= runners h) /\
  (tn = true -> state h = Running /\ runners h = 0).

(** A [Get] that allocated the handler it returned. *)
Definition created (n : string) (e : Event) : bool :=
  match ev_op e, ev_pre e with
  | OGet n', None => bool_decide (n' = n)
  | _, _ => false
  end.

Definition is_Get (n : string) (e : Event) : bool :=
  match ev_op e with
  | OGet n' => bool_decide (n' = n)
  | _ => false
  end.

(** What holds of every handler whatever its callers do: without a sandbox
    it is [Unitialized], and with one its code has been fetched. *)
Definition shape (h : Handler) : Prop :=
  (sandbox h = None -> state h = Unitialized) /\
  (sandbox h <> None -> lastPull h <> None).

(** The same for a registry: every handler of the heap has its invariant,
    with its own counts, and the counts of a pointer not yet allocated
    are 0. *)
Definition sys_inv {W} (s : Sys W) (n : Z) (pd lk : ptr -> Z)
    (tn : ptr -> bool) : Prop :=
  forall p, match heap s !! p with
            | Some h => hinv n (pd p) (lk p) (tn p) h
            | None => pd p = 0 /\ lk p = 0 /\ tn p = false
            end.

(** The map of the registry points into the heap, each name to a handler
    of that name. *)
Definition wf {W} (s : Sys W) : Prop :=
  forall nm p, handlers s !! nm = Some p ->
    exists h, heap s !! p = Some h /\ name h = nm.

(** The number of handlers allocated for the name [n]. *)
Fixpoint creations (n : string) (es : list Event) : nat :=
  match es with
  | [] => 0
  | e :: es' => (if created n e then 1 else 0) + creations n es'
  end.

(** The error of the capability check in [RunStart]. *)
Definition capability_mismatch : error :=
  errors_New "forkenter only supported with ContainerSandbox".

(** Reading a log.  [only_Channel_failed]: no call but the channel
    acquisition returned an error.  [queried]: the sandbox whose state query
    succeeded.  [forked]: the sandbox registered with [ForkEnter].
    [made_sandbox]: the sandbox directory or the sandbox was asked for.
    [pulled]: the code fetch was called. *)
Definition only_Channel_failed (l : Log) : bool :=
  forallb (fun ce => match ce with
                     | (CChannel _, _) => true
                     | (_, Some _) => false
                     | (_, None) => true
                     end) l.

Fixpoint queried (l : Log) : option Sandbox :=
  match l with
  | [] => None
  | (CState sb, None) :: _ => Some sb
  | _ :: l' => queried l'
  end.

Fixpoint forked (l : Log) : option Sandbox :=
  match l with
  | [] => None
  | (CForkEnter sb, _) :: _ => Some sb
  | _ :: l' => forked l'
  end.

Definition made_sandbox (l : Log) : bool :=
  existsb (fun ce => match ce with
                     | (CMkdirAll _ _, _) | (CCreate _ _, _) => true
                     | _ => false
                     end) l.

Definition pulled (l : Log) : bool :=
  existsb (fun ce => match ce with
                     | (CPull _, _) => true
                     | _ => false
                     end) l.

(** In the log of a [RunStart]: the state of the new sandbox [sb] was
    queried and every call before the capability check succeeded. *)
Definition reached_check (l : Log) (sb : Sandbox) : Prop :=
  queried l = Some sb /\ only_Channel_failed l = true.

(** What a [RunStart] that found no sandbox and returned [err] leaves in
    the handler, [h] before and [h'] after, by the last call it made. *)
Definition cold_failure_outcome (h h' : Handler) (err : error)
    (last_call : option (Call * option collab_err)) : Prop :=
  match last_call with
  | Some (CPull _, Some e) =>
      err = Foreign e /\ h' = h
  | Some (CMkdirAll _ _, Some e) | Some (CCreate _ _, Some e) =>
      err = Foreign e /\
      sandbox h' = None /\ state h' = state h /\ runners h' = runners h /\
      lastPull h' <> None /\ (lastPull h <> None -> h' = h)
  | Some (CState sb, Some e) =>
      err = Foreign e /\
      sandbox h' = Some sb /\ runners h' = runners h /\ lastPull h' <> None
  | Some (CStart sb, Some e) =>
      err = Foreign e /\
      sandbox h' = Some sb /\ runners h' = runners h /\ lastPull h' <> None /\
      state h' = Stopped
  | Some (CUnpause sb, Some e) =>
      err = Foreign e /\
      sandbox h' = Some sb /\ runners h' = runners h /\ lastPull h' <> None /\
      state h' = Paused
  | Some (CState sb, None) =>
      err = capability_mismatch /\
      sandbox h' = Some sb /\ runners h' = runners h /\ lastPull h' <> None /\
      state h' <> Stopped /\ state h' <> Paused
  | Some (CStart sb, None) =>
      err = capability_mismatch /\
      sandbox h' = Some sb /\ runners h' = runners h /\ lastPull h' <> None /\
      state h' = Stopped
  | Some (CUnpause sb, None) =>
      err = capability_mismatch /\
      sandbox h' = Some sb /\ runners h' = runners h /\ lastPull h' <> None /\
      state h' = Paused
  | Some (CChannel sb, Some e) =>
      err = Foreign e /\
      sandbox h' = Some sb /\ runners h' = int_add (runners h) 1 /\
      lastPull h' <> None /\ state h' = Running
  | _ => False
  end.

(** The directory [RunStart] makes for the sandbox of [h]. *)
Definition sandbox_dir_of {W} `{!Env W} (o : HandlerSetOpts) (h : Handler)
  : string :=
  path_Join [Worker_dir o; "handlers"; name h; "sandbox"].

(** The fetch block of [RunStart] when it does not return: from the handler
    [h] in the world [w] it leaves the handler [h1] in the world [w1] after
    the calls [l1].  With a fetch recorded it does nothing; without, the
    registry returns a directory, and the block records the time read after
    the fetch and that directory. *)
Definition fetched {W} `{!Env W} (h : Handler) (w : W)
    (h1 : Handler) (w1 : W) (l1 : Log) : Prop :=
  match lastPull h with
  | Some _ => h1 = h /\ w1 = w /\ l1 = []
  | None =>
      exists dir,
        (regMgr_Pull (name h) w).1 = ok dir /\
        h1 = set_codeDir dir
               (set_lastPull (Some (time_Now (regMgr_Pull (name h) w).2).1) h) /\
        w1 = (time_Now (regMgr_Pull (name h) w).2).2 /\
        l1 = [(CPull (name h), None)]
  end.

(** The calls of a [RunStart] that found no sandbox in [h], from its first
    call up to the capability check, all of them successful: the fetch if
    none was recorded, the directory, the factory on [code_dir], the state
    query of the new sandbox [sb], and start or unpause if the sandbox
    reported [st] as [Stopped] or [Paused]. *)
Definition calls_to_check {W} `{!Env W} (o : HandlerSetOpts) (h : Handler)
    (code_dir : string) (sb : Sandbox) (st : HandlerState) : Log :=
  match lastPull h with
  | None => [(CPull (name h), None)]
  | Some _ => []
  end ++
  [(CMkdirAll (sandbox_dir_of o h) perm_0666, None);
   (CCreate code_dir (sandbox_dir_of o h), None);
   (CState sb, None)] ++
  match st with
  | Stopped => [(CStart sb, None)]
  | Paused => [(CUnpause sb, None)]
  | _ => []
  end.

(** A [RunStart] on [h] stopped at the capability check: it made the calls
    up to the check and no other, and left in [h'] the new sandbox and
    the state it reported. *)
Definition stopped_at_check {W} `{!Env W} (o : HandlerSetOpts)
    (h h' : Handler) (new : Log) (sb : Sandbox) : Prop :=
  new = calls_to_check o h (codeDir h') sb (state h') /\
  sandbox h' = Some sb.

(** ** Readers of the log and of the registry, for the properties of whole
    sequences *)

(** The number of sandboxes the factory returned, in a log. *)
Definition creates (l : Log) : nat :=
  length (List.filter (fun ce => match ce with
                                 | (CCreate _ _, None) => true
                                 | _ => false
                                 end) l).

(** The calls each method can make. *)
Definition RunStart_calls (c : Call) : bool :=
  match c with
  | CPull _ | CMkdirAll _ _ | CCreate _ _ | CState _ | CStart _ | CUnpause _
  | CChannel _ | CForkEnter _ | CLruRemove _ => true
  | _ => false
  end.

Definition RunFinish_calls (c : Call) : bool :=
  match c with
  | CPause _ | CLruAdd _ | CLog _ _ _ => true
  | _ => false
  end.

Definition StopIfPaused_calls (c : Call) : bool :=
  match c with
  | CUnpause _ | CStop _ | CLog _ _ _ => true
  | _ => false
  end.

Definition only_calls (may : Call -> bool) (l : Log) : bool :=
  forallb (fun ce => may ce.1) l.

(** A line printed by [log.Printf]: the format and its arguments. *)
Definition Printed : Type := string * list string.

(** [Dump] prints the name and state of the handlers currently in the set.
    It reads [v.state] of every handler of the map, which panics on a
    pointer to nothing.  Go ranges over a map in an order it does not
    specify; the lines come here in the order of [map_to_list], and nothing
    is proved of that order.  [String] of package [state] is not part of
    the sources at hand and is a parameter. *)
Definition Dump {W} (state_String : HandlerState -> string) (s : Sys W)
  : option (list Printed) :=
  match mapM (fun kv : string * nat =>
                match heap s !! kv.2 with
                | Some v => Some ("> %v: %v\n", [kv.1; state_String (state v)])
                | None => None
                end) (map_to_list (handlers s)) with
  | Some lines => Some (("HANDLERS:\n", []) :: lines)
  | None => None
  end.

(** Every handler of the heap is in the map under its name, and the map
    has as many names as the heap has handlers. *)
Definition listed {W} (s : Sys W) : Prop :=
  (forall p h, heap s !! p = Some h -> handlers s !! name h = Some p) /\
  length (heap s) = size (handlers s).

(** ** A scripted world, for concrete runs *)

Module Demo.

Inductive Fault : Type :=
  | FPull | FMkdir | FCreate | FState | FStart | FUnpause | FPause | FStop
  | FChannel.

#[global] Instance Fault_eq_dec : EqDecision Fault.
Proof. solve_decision. Defined.

(** The collaborators' state: which call fails (if any), the state a new
    sandbox reports, whether the factory makes container sandboxes, the
    clock, the sandboxes made and registered for fork-enter, and the idle
    handlers of the LRU, most recent first. *)
Record World : Type := mkWorld {
  fault : option Fault;
  reports : HandlerState;
  container : bool;
  clock : Z;
  made : nat;
  registered : list nat;
  idle : list ptr;
}.

Definition fails (f : Fault) (w : World) : option collab_err :=
  if decide (fault w = Some f) then Some "fault" else None.

Definition tick (w : World) : World :=
  mkWorld (fault w) (reports w) (container w) (clock w + 1) (made w)
          (registered w) (idle w).

Definition make (w : World) : World :=
  mkWorld (fault w) (reports w) (container w) (clock w) (S (made w))
          (registered w) (idle w).

Definition fork (sb : Sandbox) (w : World) : World :=
  mkWorld (fault w) (reports w) (container w) (clock w) (made w)
          (sb_id sb :: registered w) (idle w).

Definition set_idle (l : list ptr) (w : World) : World :=
  mkWorld (fault w) (reports w) (container w) (clock w) (made w)
          (registered w) l.

(** Modelled from the spec: [HandlerLRU] is part of this package but not of
    the sources at hand.  Of its contract the scripted world keeps that
    [add] inserts or refreshes the controller as the most recent idle entry
    and that [remove] removes it whether present or not; the capacity is 0,
    unbounded, so nothing is evicted. *)
Definition add (h : ptr) (l : list ptr) : list ptr :=
  h :: filter (fun h' => h' ≠ h) l.

Definition remove (h : ptr) (l : list ptr) : list ptr :=
  filter (fun h' => h' ≠ h) l.

#[global] Instance env : Env World := {|
  regMgr_Pull n w :=
    (match fails FPull w with
     | Some e => fail e
     | None => ok (String.append "/registry/" n)
     end, w);
  time_Now w := (clock w, tick w);
  path_Join l := String.concat "/" l;
  os_MkdirAll _ _ w := (fails FMkdir w, w);
  sbFactory_Create _ _ w :=
    match fails FCreate w with
    | Some e => (fail e, w)
    | None => (ok (mkSandbox (container w) (made w)), make w)
    end;
  sandbox_State _ w := ((reports w, fails FState w), w);
  sandbox_Start _ w := (fails FStart w, w);
  sandbox_Unpause _ w := (fails FUnpause w, w);
  sandbox_Pause _ w := (fails FPause w, w);
  sandbox_Stop _ w := (fails FStop w, w);
  sandbox_Channel _ w :=
    (match fails FChannel w with
     | Some e => (None, Some e)
     | None => (Some "channel", None)
     end, w);
  poolMgr_ForkEnter sb w := fork sb w;
  lru_Add h w := set_idle (add h (idle w)) w;
  lru_Remove h w := set_idle (remove h (idle w)) w;
|}.

(** A world where [f] fails, new sandboxes report [st], and the factory
    makes container sandboxes or not. *)
Definition world_of (f : option Fault) (st : HandlerState) (c : bool) : World :=
  mkWorld f st c 100 0 [] [].

Definition plain : HandlerSetOpts := mkOpts false "/tmp/worker".
Definition pooled : HandlerSetOpts := mkOpts true "/tmp/worker".

(** The handler [Get] makes for [n], and handlers that have a sandbox,
    paused, stopped, or running for [k] callers. *)
Definition fresh (n : string) : Handler :=
  mkHandler n None None Unitialized 0 [] "".

Definition sb0 : Sandbox := mkSandbox false 0.

Definition paused (n : string) : Handler :=
  mkHandler n (Some sb0) (Some 100) Paused 0 [] (String.append "/registry/" n).

Definition stopped (n : string) : Handler :=
  mkHandler n (Some sb0) (Some 100) Stopped 0 [] (String.append "/registry/" n).

Definition running (n : string) (k : Z) : Handler :=
  mkHandler n (Some sb0) (Some 100) Running k [] (String.append "/registry/" n).

End Demo.

(** * Theorems *)

(** ** Machine integers *)

Lemma wrap_int_small (z : Z) : int_min <= z <= int_max -> wrap_int z = z.
Proof.
  unfold wrap_int, int_min, int_max. intros Hz.
  rewrite Z.mod_small by lia. lia.
Qed.

Lemma int_add_1 (z : Z) : int_min <= z < int_max -> int_add z 1 = z + 1.
Proof. intros Hz. unfold int_add. apply wrap_int_small. lia. Qed.

Lemma int_sub_1 (z : Z) : int_min < z <= int_max -> int_sub z 1 = z - 1.
Proof. intros Hz. unfold int_sub. apply wrap_int_small. lia. Qed.

(** ** Running a method symbolically *)

Ltac unfold_method :=
  unfold RunStart, RunFinish, StopIfPaused, fn, seq, bind, ret, Return, skip,
    check_err, call_r, call_e, call_p, call_, logged, modify, get_h, now,
    deref, panic, log_Printf, err_of_result.

(** Split on the next value the method branches on. *)
Ltac split_next :=
  match goal with
  | |- context [match ?x with _ => _ end] =>
      lazymatch x with
      | context [match _ with _ => _ end] => fail
      | _ => destruct x eqn:?
      end
  | H : context [match ?x with _ => _ end] |- _ =>
      lazymatch x with
      | context [match _ with _ => _ end] => fail
      | _ => destruct x eqn:?
      end
  end.

Ltac split_hyp H :=
  match type of H with
  | context [match ?x with _ => _ end] =>
      lazymatch x with
      | context [match _ with _ => _ end] => fail
      | _ => destruct x eqn:?
      end
  end.

(** All the paths of a method run [H : method m = Some (r, m')], each with
    the values the run branched on as equations. *)
Ltac paths H :=
  unfold RunStart, RunFinish, StopIfPaused, fn, seq, bind, ret, Return, skip,
    check_err, call_r, call_e, call_p, call_, logged, modify, get_h, now,
    deref, panic, log_Printf, err_of_result in H;
  simpl in H;
  repeat (split_hyp H; simpl in H; try discriminate H);
  inversion H; subst; clear H.

(** The error of the channel call, when [RunStart] returned it. *)
Ltac split_channel_error :=
  match goal with
  | H : Foreign <$> ?x = _ |- _ => destruct x eqn:?; simpl in H
  end.

(** The calls a run [Hnew : calls m' = calls m ++ new] added, as a list. *)
Ltac new_calls Hnew :=
  simpl in Hnew; rewrite <- ?app_assoc in Hnew;
  apply app_inv_head in Hnew; simpl in Hnew; subst.

(** Use the implications whose premise holds. *)
Ltac forward :=
  repeat match goal with
         | Hi : ?P -> _ |- _ =>
             let HP := fresh in
             assert (HP : P) by first [assumption | congruence | lia];
             specialize (Hi HP); clear HP
         end.

Ltac hinv_leaf :=
  unfold hinv in *; simpl in *; destruct_and?; simplify_eq;
  split_and!; intros; simplify_eq; forward; destruct_and?;
  try done; try congruence; try lia;
  try (exfalso; match goal with Hn : ~ _ |- _ => apply Hn; congruence end).

Section Proofs.
Context {W : Type} `{!Env W}.
Implicit Types (m : Mem W) (h : Handler) (w : W) (s : Sys W).
Implicit Types (o : HandlerSetOpts) (self : ptr).

Lemma RunStart_total o self m : is_Some (RunStart o self m).
Proof.
  destruct m as [h w cs]. unfold_method. simpl.
  repeat (split_next; simpl in *; try done).
Qed.

(** ** [RunFinish] *)

(** C4. On a controller that has a sandbox: when [RunFinish] decrements the
    runner count to exactly 0 it calls pause on the sandbox, and whether that
    call fails or not the state becomes [Paused], the controller is added to
    the LRU and the call returns normally, a failure being logged and nothing
    more.  When the decrement leaves a count other than 0 (above 0 for a
    count in range), nothing is called, the state stays, and only the count
    changes. *)
Theorem RunFinish_last_runner_pauses self h w cs sb :
  sandbox h = Some sb ->
  (int_sub (runners h) 1 = 0 ->
   let p := sandbox_Pause sb w in
   RunFinish self (mkMem h w cs) =
     Some (tt, mkMem (set_state Paused (set_runners 0 h))
                     (lru_Add self p.2)
                     (cs ++ (CPause sb, p.1) ::
                        match p.1 with
                        | Some err =>
                            [(CLog "Could not pause %v!  Error: %v\n" (name h) err, None)]
                        | None => []
                        end ++ [(CLruAdd self, None)]))) /\
  (int_sub (runners h) 1 <> 0 ->
   RunFinish self (mkMem h w cs) =
     Some (tt, mkMem (set_runners (int_sub (runners h) 1) h) w cs)) /\
  (1 < runners h <= int_max -> 0 < int_sub (runners h) 1).
Proof.
  intros Hsb. split; [|split].
  - intros Hz. unfold_method. simpl. rewrite Hz, Hsb. simpl.
    destruct (sandbox_Pause sb w) as [[e|] w1]; simpl;
      unfold set_state, set_runners; simpl;
      rewrite <- ?app_assoc; reflexivity.
  - intros Hz. unfold_method. simpl.
    destruct (decide (int_sub (runners h) 1 = 0)); [done|reflexivity].
  - intros Hr. rewrite int_sub_1; unfold int_min, int_max in *; lia.
Qed.

(** ** [StopIfPaused] *)

Lemma StopIfPaused_not_Paused h w cs :
  state h <> Paused ->
  StopIfPaused (mkMem h w cs) = Some (tt, mkMem h w cs).
Proof.
  intros Hst. unfold_method. simpl.
  destruct (decide (state h <> Paused)); [reflexivity|done].
Qed.

Lemma StopIfPaused_Paused h w cs sb :
  state h = Paused -> sandbox h = Some sb ->
  let u := sandbox_Unpause sb w in
  let s := sandbox_Stop sb u.2 in
  StopIfPaused (mkMem h w cs) =
    Some (tt,
      match u.1 with
      | Some err =>
          mkMem h u.2
            (cs ++ [(CUnpause sb, Some err);
                    (CLog "Could not unpause %v to kill it!  Error: %v\n" (name h) err, None)])
      | None =>
          match s.1 with
          | Some err =>
              mkMem h s.2
                (cs ++ [(CUnpause sb, None); (CStop sb, Some err);
                        (CLog "Could not kill %v after unpausing!  Error: %v\n" (name h) err, None)])
          | None =>
              mkMem (set_state Stopped h) s.2
                (cs ++ [(CUnpause sb, None); (CStop sb, None)])
          end
      end).
Proof.
  intros Hst Hsb. unfold_method. simpl.
  destruct (decide (state h <> Paused)) as [Hne|_]; [done|]. simpl.
  rewrite Hsb. simpl.
  destruct (sandbox_Unpause sb w) as [[e|] w1]; simpl.
  - rewrite <- app_assoc. reflexivity.
  - destruct (sandbox_Stop sb w1) as [[e|] w2]; simpl;
      rewrite <- ?app_assoc; reflexivity.
Qed.

(** ** [RunStart] on a handler that has a sandbox *)

Lemma RunStart_with_sandbox_not_Paused o self h w cs sb t :
  sandbox h = Some sb -> lastPull h = Some t -> state h <> Paused ->
  let c := sandbox_Channel sb w in
  RunStart o self (mkMem h w cs) =
    Some ((c.1.1, Foreign <$> c.1.2),
          mkMem (set_runners (int_add (runners h) 1) (set_state Running h)) c.2
                (cs ++ [(CChannel sb, c.1.2)])).
Proof.
  intros Hsb Hlp Hst. unfold_method. simpl. rewrite Hlp. simpl.
  rewrite Hsb. simpl.
  destruct (state h) eqn:Hs; try done; simpl; rewrite ?Hsb; reflexivity.
Qed.

Lemma RunStart_Paused o self h w cs sb t :
  sandbox h = Some sb -> state h = Paused -> lastPull h = Some t ->
  let u := sandbox_Unpause sb w in
  match u.1 with
  | Some err =>
      RunStart o self (mkMem h w cs) =
        Some ((None, Some (Foreign err)),
              mkMem h u.2 (cs ++ [(CUnpause sb, Some err)]))
  | None =>
      let c := sandbox_Channel sb (lru_Remove self u.2) in
      RunStart o self (mkMem h w cs) =
        Some ((c.1.1, Foreign <$> c.1.2),
              mkMem (set_runners (int_add (runners h) 1) (set_state Running h))
                    c.2
                    (cs ++ [(CUnpause sb, None); (CLruRemove self, None);
                            (CChannel sb, c.1.2)]))
  end.
Proof.
  intros Hsb Hst Hlp. simpl.
  unfold_method. simpl. rewrite Hlp. simpl. rewrite Hsb, Hst. simpl.
  destruct (sandbox_Unpause sb w) as [[e|] w1]; simpl.
  - reflexivity.
  - rewrite Hsb. simpl. rewrite <- !app_assoc. reflexivity.
Qed.

(** ** [RunStart] in general *)

Lemma RunStart_log o self m r m' :
  RunStart o self m = Some (r, m') -> exists new, calls m' = calls m ++ new.
Proof.
  destruct m as [h w cs]. intros H. paths H; simpl;
    rewrite <- ?app_assoc; eauto.
Qed.

Lemma RunStart_frame o self m r m' :
  RunStart o self m = Some (r, m') ->
  name (hd m') = name (hd m) /\ code (hd m') = code (hd m).
Proof.
  destruct m as [h w cs]. intros H. paths H; simpl; done.
Qed.

Lemma RunStart_channel_failure o self m ch err m' new sb e :
  RunStart o self m = Some ((ch, err), m') ->
  calls m' = calls m ++ new ->
  last new = Some (CChannel sb, Some e) ->
  err = Some (Foreign e) /\ state (hd m') = Running /\
  runners (hd m') = int_add (runners (hd m)) 1.
Proof.
  destruct m as [h w cs]. intros H Hnew Hlast.
  paths H; new_calls Hnew; simpl in Hlast; simplify_eq; simpl.
  all: match goal with Hc : ?x = Some _ |- context [?x] => rewrite Hc end.
  all: done.
Qed.

Lemma RunStart_cold_failure_outcome o self m ch err m' new :
  sandbox (hd m) = None ->
  RunStart o self m = Some ((ch, Some err), m') ->
  calls m' = calls m ++ new ->
  name (hd m') = name (hd m) /\ code (hd m') = code (hd m) /\
  cold_failure_outcome (hd m) (hd m') err (last new).
Proof.
  destruct m as [h w cs]. simpl. intros Hsb H Hnew.
  paths H; new_calls Hnew; simpl in *; simplify_eq;
    try split_channel_error; simpl in *; simplify_eq;
    repeat split; try done; try congruence.
Qed.

Lemma RunStart_fetched_no_pull o self m r m' new :
  lastPull (hd m) <> None ->
  RunStart o self m = Some (r, m') ->
  calls m' = calls m ++ new ->
  pulled new = false /\ lastPull (hd m') = lastPull (hd m).
Proof.
  destruct m as [h w cs]. simpl. intros Hlp H Hnew.
  paths H; new_calls Hnew; simpl in *; try done;
    split; first [reflexivity | congruence].
Qed.

Lemma RunStart_with_sandbox_no_creation o self m r m' new :
  sandbox (hd m) <> None ->
  RunStart o self m = Some (r, m') ->
  calls m' = calls m ++ new ->
  made_sandbox new = false /\ sandbox (hd m') = sandbox (hd m).
Proof.
  destruct m as [h w cs]. simpl. intros Hsb H Hnew.
  paths H; new_calls Hnew; simpl in *; try done;
    split; first [reflexivity | congruence].
Qed.

Lemma RunStart_cold_failure_exact o self h w cs h1 w1 l1 :
  sandbox h = None -> fetched h w h1 w1 l1 ->
  let dir := sandbox_dir_of o h in
  let mk := os_MkdirAll dir perm_0666 w1 in
  let cr := sbFactory_Create (codeDir h1) dir mk.2 in
  let run := RunStart o self (mkMem h w cs) in
  let l2 := cs ++ l1 ++ [(CMkdirAll dir perm_0666, mk.1)] in
  (forall e, mk.1 = Some e ->
     run = Some ((None, Some (Foreign e)), mkMem h1 mk.2 l2)) /\
  (mk.1 = None -> forall e, cr.1 = fail e ->
     run = Some ((None, Some (Foreign e)),
                 mkMem h1 cr.2 (l2 ++ [(CCreate (codeDir h1) dir, Some e)]))) /\
  (mk.1 = None -> forall sb, cr.1 = ok sb ->
     let q := sandbox_State sb cr.2 in
     let h2 := set_state q.1.1 (set_sandbox (Some sb) h1) in
     let l3 := l2 ++ [(CCreate (codeDir h1) dir, None); (CState sb, q.1.2)] in
     (forall e, q.1.2 = Some e ->
        run = Some ((None, Some (Foreign e)), mkMem h2 q.2 l3)) /\
     (q.1.2 = None ->
        let r := match q.1.1 with
                 | Stopped => sandbox_Start sb q.2
                 | Paused => sandbox_Unpause sb q.2
                 | _ => (None, q.2)
                 end in
        let l4 := l3 ++ match q.1.1 with
                        | Stopped => [(CStart sb, r.1)]
                        | Paused => [(CUnpause sb, r.1)]
                        | _ => []
                        end in
        (forall e, r.1 = Some e ->
           run = Some ((None, Some (Foreign e)), mkMem h2 r.2 l4)) /\
        (r.1 = None -> PoolMgr o = true -> sb_container sb = false ->
           run = Some ((None, Some capability_mismatch), mkMem h2 r.2 l4)))).
Proof.
  intros Hsb Hf. unfold fetched in Hf. unfold sandbox_dir_of.
  destruct h as [nm sbx lp st rn cd cdir]. simpl in *. subst sbx.
  destruct lp as [t|].
  - destruct Hf as (-> & -> & ->). simpl.
    split_and!.
    + intros e He. unfold_method. simpl. rewrite He. simpl. reflexivity.
    + intros Hm e He. unfold_method. simpl. rewrite Hm. simpl. rewrite He.
      simpl. rewrite <- ?app_assoc. reflexivity.
    + intros Hm sb Hc. split.
      * intros e He. unfold_method. simpl. rewrite Hm. simpl. rewrite Hc.
        simpl. rewrite He. simpl. rewrite <- ?app_assoc. reflexivity.
      * intros Hq. split.
        -- intros e He. unfold_method. simpl. rewrite Hm. simpl. rewrite Hc.
           simpl. rewrite Hq. simpl.
           destruct (sandbox_State sb _).1.1; simpl in *; try discriminate;
             rewrite He; simpl; rewrite <- ?app_assoc; reflexivity.
        -- intros Hr Hp Hcont. unfold_method. simpl. rewrite Hm. simpl.
           rewrite Hc. simpl. rewrite Hq. simpl. rewrite Hp.
           destruct (sandbox_State sb _).1.1; simpl in *;
             rewrite ?Hr; simpl; rewrite Hcont; simpl;
             rewrite <- ?app_assoc; reflexivity.
  - destruct Hf as (d & Hd & -> & -> & ->). simpl.
    split_and!.
    + intros e He. unfold_method. simpl. rewrite Hd. simpl. rewrite He.
      simpl. rewrite <- ?app_assoc. reflexivity.
    + intros Hm e He. unfold_method. simpl. rewrite Hd. simpl. rewrite Hm.
      simpl. rewrite He. simpl. rewrite <- ?app_assoc. reflexivity.
    + intros Hm sb Hc. split.
      * intros e He. unfold_method. simpl. rewrite Hd. simpl. rewrite Hm.
        simpl. rewrite Hc. simpl. rewrite He. simpl.
        rewrite <- ?app_assoc. reflexivity.
      * intros Hq. split.
        -- intros e He. unfold_method. simpl. rewrite Hd. simpl.
           rewrite Hm. simpl. rewrite Hc. simpl. rewrite Hq. simpl.
           destruct (sandbox_State sb _).1.1; simpl in *; try discriminate;
             rewrite He; simpl; rewrite <- ?app_assoc; reflexivity.
        -- intros Hr Hp Hcont. unfold_method. simpl. rewrite Hd. simpl.
           rewrite Hm. simpl. rewrite Hc. simpl. rewrite Hq. simpl.
           rewrite Hp.
           destruct (sandbox_State sb _).1.1; simpl in *;
             rewrite ?Hr; simpl; rewrite Hcont; simpl;
             rewrite <- ?app_assoc; reflexivity.
Qed.

(** C1, as the code has it.  When [RunStart] finds no sandbox and returns an
    error, what it leaves depends on the call that failed.  After a failed
    fetch the handler is as it was.  After a failed directory or sandbox
    creation the handler is as the fetch block left it: the sandbox is still
    absent and the state and the runner count are as they were, but the time
    and the directory of a fetch made by this call stay recorded.  After a
    failed state query, a failed start or unpause, or a failed capability
    check, the new sandbox stays in the handler with the state it reported,
    whatever that state is, and the runner count as it was.  The name and
    the code never change.  The first part reads the failure off the last
    call of any [RunStart] that returned an error; the second and third
    give the result of [RunStart], handler, world and calls, from what the
    collaborators answer.  A later [RunStart] fetches only if no fetch is
    recorded, and makes a sandbox only if none is in the handler. *)
Theorem RunStart_cold_failure o self :
  (forall m ch err m' new,
     sandbox (hd m) = None ->
     RunStart o self m = Some ((ch, Some err), m') ->
     calls m' = calls m ++ new ->
     name (hd m') = name (hd m) /\ code (hd m') = code (hd m) /\
     cold_failure_outcome (hd m) (hd m') err (last new)) /\
  (forall h w cs e,
     lastPull h = None -> (regMgr_Pull (name h) w).1 = fail e ->
     RunStart o self (mkMem h w cs) =
       Some ((None, Some (Foreign e)),
             mkMem h (regMgr_Pull (name h) w).2
                   (cs ++ [(CPull (name h), Some e)]))) /\
  (forall h w cs h1 w1 l1,
     sandbox h = None -> fetched h w h1 w1 l1 ->
     let dir := sandbox_dir_of o h in
     let mk := os_MkdirAll dir perm_0666 w1 in
     let cr := sbFactory_Create (codeDir h1) dir mk.2 in
     let run := RunStart o self (mkMem h w cs) in
     let l2 := cs ++ l1 ++ [(CMkdirAll dir perm_0666, mk.1)] in
     (forall e, mk.1 = Some e ->
        run = Some ((None, Some (Foreign e)), mkMem h1 mk.2 l2)) /\
     (mk.1 = None -> forall e, cr.1 = fail e ->
        run = Some ((None, Some (Foreign e)),
                    mkMem h1 cr.2
                          (l2 ++ [(CCreate (codeDir h1) dir, Some e)]))) /\
     (mk.1 = None -> forall sb, cr.1 = ok sb ->
        let q := sandbox_State sb cr.2 in
        let h2 := set_state q.1.1 (set_sandbox (Some sb) h1) in
        let l3 :=
          l2 ++ [(CCreate (codeDir h1) dir, None); (CState sb, q.1.2)] in
        (forall e, q.1.2 = Some e ->
           run = Some ((None, Some (Foreign e)), mkMem h2 q.2 l3)) /\
        (q.1.2 = None ->
           let r := match q.1.1 with
                    | Stopped => sandbox_Start sb q.2
                    | Paused => sandbox_Unpause sb q.2
                    | _ => (None, q.2)
                    end in
           let l4 := l3 ++ match q.1.1 with
                           | Stopped => [(CStart sb, r.1)]
                           | Paused => [(CUnpause sb, r.1)]
                           | _ => []
                           end in
           (forall e, r.1 = Some e ->
              run = Some ((None, Some (Foreign e)), mkMem h2 r.2 l4)) /\
           (r.1 = None -> PoolMgr o = true -> sb_container sb = false ->
              run = Some ((None, Some capability_mismatch),
                          mkMem h2 r.2 l4))))) /\
  (forall m r m' new,
     lastPull (hd m) <> None ->
     RunStart o self m = Some (r, m') ->
     calls m' = calls m ++ new ->
     pulled new = false /\ lastPull (hd m') = lastPull (hd m)) /\
  (forall m r m' new,
     sandbox (hd m) <> None ->
     RunStart o self m = Some (r, m') ->
     calls m' = calls m ++ new ->
     made_sandbox new = false /\ sandbox (hd m') = sandbox (hd m)).
Proof.
  split_and!.
  - apply RunStart_cold_failure_outcome.
  - intros h w cs e Hlp He. unfold_method. simpl. rewrite Hlp. simpl.
    rewrite He. reflexivity.
  - intros h w cs h1 w1 l1. apply RunStart_cold_failure_exact.
  - apply RunStart_fetched_no_pull.
  - apply RunStart_with_sandbox_no_creation.
Qed.

Lemma RunStart_capability_reached o self m ch err m' new :
  RunStart o self m = Some ((ch, err), m') ->
  calls m' = calls m ++ new ->
  (err = Some capability_mismatch <->
     sandbox (hd m) = None /\ PoolMgr o = true /\
     exists sb, reached_check new sb /\ sb_container sb = false) /\
  (forall sb, reached_check new sb -> PoolMgr o = true ->
     sb_container sb = true ->
     forked new = Some sb /\ err <> Some capability_mismatch) /\
  (PoolMgr o = false ->
     err <> Some capability_mismatch /\ forked new = None).
Proof.
  destruct m as [h w cs]. simpl. intros H Hnew.
  paths H; new_calls Hnew;
    repeat match goal with
           | |- context [Foreign <$> ?x] => destruct x eqn:?; simpl
           end;
    unfold reached_check, capability_mismatch; simpl.
  all: repeat split; intros;
    repeat match goal with
           | Hc : _ /\ _ |- _ => destruct Hc
           | Hc : exists _, _ |- _ => destruct Hc
           end;
    simplify_eq; try done; try congruence;
    try (eexists; repeat split; first [reflexivity | eassumption]).
Qed.

Lemma RunStart_capability_log o self m ch err m' new :
  RunStart o self m = Some ((ch, err), m') ->
  calls m' = calls m ++ new ->
  (err = Some capability_mismatch <->
     sandbox (hd m) = None /\ PoolMgr o = true /\
     exists sb, stopped_at_check o (hd m) (hd m') new sb /\
                sb_container sb = false).
Proof.
  destruct m as [h w cs]. simpl. intros H Hnew.
  paths H; new_calls Hnew;
    repeat match goal with
           | |- context [Foreign <$> ?x] => destruct x eqn:?; simpl
           end;
    unfold stopped_at_check, calls_to_check, sandbox_dir_of,
      capability_mismatch; simpl.
  all: repeat match goal with
              | Hc : ?x = _ |- context [match ?x with _ => _ end] =>
                  rewrite Hc
              end; simpl.
  all: split; intros;
    repeat match goal with
           | Hc : _ /\ _ |- _ => destruct Hc
           | Hc : exists _, _ |- _ => destruct Hc
           end;
    simplify_eq; try done; try congruence;
    try (split_and!; try done; eexists; split_and!;
         first [reflexivity | eassumption | done]).
Qed.

(** C7, as the code has it.  [RunStart] returns the capability error
    exactly when it found no sandbox, a pool manager is configured, the new
    sandbox is not a container sandbox, and the calls it made are those up
    to the check and no other, each of them successful: the fetch if none
    was recorded, the directory, the factory, the state query, and then
    start if the sandbox reported [Stopped] or unpause if it reported
    [Paused]; the handler keeps the sandbox and the state it reported.  For
    the error it is enough that the state was queried and no call failed.
    When the check is reached with a pool manager and a container sandbox,
    the sandbox is registered with [ForkEnter] and the error is not the
    capability error.  Without a pool manager there is neither the error nor
    a registration. *)
Theorem RunStart_capability_check o self m ch err m' new :
  RunStart o self m = Some ((ch, err), m') ->
  calls m' = calls m ++ new ->
  (err = Some capability_mismatch <->
     sandbox (hd m) = None /\ PoolMgr o = true /\
     exists sb, stopped_at_check o (hd m) (hd m') new sb /\
                sb_container sb = false) /\
  (sandbox (hd m) = None -> PoolMgr o = true ->
   forall sb, reached_check new sb -> sb_container sb = false ->
   err = Some capability_mismatch) /\
  (forall sb, reached_check new sb -> PoolMgr o = true ->
     sb_container sb = true ->
     forked new = Some sb /\ err <> Some capability_mismatch) /\
  (PoolMgr o = false ->
     err <> Some capability_mismatch /\ forked new = None).
Proof.
  intros H Hnew.
  destruct (RunStart_capability_reached _ _ _ _ _ _ _ H Hnew)
    as (Hiff & Hc & Hn).
  split_and!; [by eapply RunStart_capability_log| |done|done].
  intros Hsb Hp sb Hr Hcont. apply Hiff. eauto.
Qed.

(** ** The code fetch *)

Lemma RunStart_fetch_failure o self h w cs err w1 :
  lastPull h = None ->
  regMgr_Pull (name h) w = (fail err, w1) ->
  RunStart o self (mkMem h w cs) =
    Some ((None, Some (Foreign err)),
          mkMem h w1 (cs ++ [(CPull (name h), Some err)])).
Proof.
  intros Hlp Hp. unfold_method. simpl. rewrite Hlp. simpl. rewrite Hp.
  reflexivity.
Qed.

Lemma RunStart_fetch_recorded o self h w cs dir w1 r m' :
  lastPull h = None ->
  regMgr_Pull (name h) w = (ok dir, w1) ->
  RunStart o self (mkMem h w cs) = Some (r, m') ->
  lastPull (hd m') = Some (time_Now w1).1 /\ codeDir (hd m') = dir.
Proof.
  intros Hlp Hp H. paths H; simpl; try congruence.
  all: rewrite Hp in *; simpl in *; simplify_eq; done.
Qed.

Lemma invoke_keeps_fetch o self mt m m' t :
  lastPull (hd m) = Some t ->
  invoke o self mt m = Some (tt, m') ->
  lastPull (hd m') = Some t /\ codeDir (hd m') = codeDir (hd m) /\
  exists new, calls m' = calls m ++ new /\ pulled new = false.
Proof.
  destruct m as [h w cs]. simpl. intros Hlp H.
  destruct mt; unfold invoke in H; paths H; simpl;
    try congruence;
    (split_and!; [congruence..|]); rewrite <- ?app_assoc;
    first [ eexists; split; [reflexivity|reflexivity]
          | exists []; split; [by rewrite app_nil_r|reflexivity] ].
Qed.

Lemma invoke_all_keeps_fetch o self mts m m' t :
  lastPull (hd m) = Some t ->
  invoke_all o self mts m = Some (tt, m') ->
  lastPull (hd m') = Some t /\ codeDir (hd m') = codeDir (hd m) /\
  exists new, calls m' = calls m ++ new /\ pulled new = false.
Proof.
  revert m. induction mts as [|mt mts IH]; intros m Hlp H.
  - injection H as <-. split_and!; [done..|]. exists []. by rewrite app_nil_r.
  - simpl in H. unfold bind in H.
    destruct (invoke o self mt m) as [[[] m1]|] eqn:Hm; [|done].
    destruct (invoke_keeps_fetch _ _ _ _ _ _ Hlp Hm)
      as (Hlp1 & Hd1 & new1 & Hc1 & Hp1).
    destruct (IH _ Hlp1 H) as (Hlp2 & Hd2 & new2 & Hc2 & Hp2).
    split_and!; [done|congruence|]. exists (new1 ++ new2). split.
    + by rewrite Hc2, Hc1, app_assoc.
    + unfold pulled in *. by rewrite existsb_app, Hp1, Hp2.
Qed.

(** C8. On a controller whose code has never been fetched: when the fetch
    fails, [RunStart] returns that error having made no other call, and the
    controller is as it was; when the fetch succeeds, the time and the code
    directory are recorded, whatever [RunStart] does next.  Once recorded,
    no later call on the controller fetches again, and the record stays. *)
Theorem RunStart_fetches_code_once o self h w cs :
  (forall err w1,
     lastPull h = None ->
     regMgr_Pull (name h) w = (fail err, w1) ->
     RunStart o self (mkMem h w cs) =
       Some ((None, Some (Foreign err)),
             mkMem h w1 (cs ++ [(CPull (name h), Some err)]))) /\
  (forall dir w1,
     lastPull h = None ->
     regMgr_Pull (name h) w = (ok dir, w1) ->
     exists r m',
       RunStart o self (mkMem h w cs) = Some (r, m') /\
       lastPull (hd m') = Some (time_Now w1).1 /\ codeDir (hd m') = dir) /\
  (forall t mts m',
     lastPull h = Some t ->
     invoke_all o self mts (mkMem h w cs) = Some (tt, m') ->
     lastPull (hd m') = Some t /\ codeDir (hd m') = codeDir h /\
     exists new, calls m' = cs ++ new /\ pulled new = false).
Proof.
  split; [|split].
  - intros err w1. apply RunStart_fetch_failure.
  - intros dir w1 Hlp Hp.
    destruct (RunStart_total o self (mkMem h w cs)) as [[r m'] Hr].
    exists r, m'. split; [done|]. by eapply RunStart_fetch_recorded.
  - intros t mts m' Hlp H.
    destruct (invoke_all_keeps_fetch o self mts (mkMem h w cs) m' t Hlp H)
      as (? & ? & ? & ? & ?).
    eauto.
Qed.

(** ** The invariant of a handler, method by method *)

Lemma hinv_mono n n' pd lk tn h :
  n <= n' -> hinv n pd lk tn h -> hinv n' pd lk tn h.
Proof. unfold hinv. intros ? ?. destruct_and?. split_and!; try done; lia. Qed.

Lemma hinv_fresh n nm :
  0 <= n -> hinv n 0 0 false (mkHandler nm None None Unitialized 0 [] "").
Proof. unfold hinv. simpl. intros. split_and!; try done; lia. Qed.

Lemma RunStart_hinv o self n pd lk tn h w cs ch err m' :
  hinv n pd lk tn h -> n < int_max ->
  RunStart o self (mkMem h w cs) = Some ((ch, err), m') ->
  let h' := hd m' in
  match err with
  | None => hinv (n + 1) (pd + 1) lk false h'
  | Some _ =>
      if bool_decide (runners h' = runners h) then
        hinv (n + 1) pd lk
             (tn || (bool_decide (sandbox h = None) &&
                     bool_decide (state h' = Running))) h'
      else hinv (n + 1) pd (lk + 1) false h'
  end.
Proof.
  intros Hi Hn H.
  assert (Hadd : int_add (runners h) 1 = runners h + 1).
  { apply int_add_1. unfold hinv, int_min, int_max in *. lia. }
  paths H; simpl; rewrite ?Hadd;
    repeat match goal with
           | |- context [Foreign <$> ?x] => destruct x eqn:?; simpl
           end;
    repeat case_bool_decide; simpl; try lia; try congruence.
  all: try (destruct tn; simpl).
  all: hinv_leaf.
Qed.

Lemma RunFinish_hinv self n pd lk tn h w cs m' :
  hinv n pd lk tn h -> n < int_max -> 0 < pd ->
  RunFinish self (mkMem h w cs) = Some (tt, m') ->
  hinv (n + 1) (pd - 1) lk tn (hd m').
Proof.
  intros Hi Hn Hpd H.
  assert (Hsub : int_sub (runners h) 1 = runners h - 1).
  { apply int_sub_1. unfold hinv, int_min, int_max in *. lia. }
  paths H; rewrite Hsub in *; hinv_leaf.
Qed.

Lemma StopIfPaused_hinv n pd lk tn h w cs m' :
  hinv n pd lk tn h ->
  StopIfPaused (mkMem h w cs) = Some (tt, m') ->
  hinv (n + 1) pd lk tn (hd m').
Proof.
  intros Hi H. paths H; hinv_leaf.
Qed.

(** ** The registry *)

Lemma invoke_name o self mt m r m' :
  invoke o self mt m = Some (r, m') -> name (hd m') = name (hd m).
Proof.
  destruct m as [h w cs]. intros H.
  destruct mt; unfold invoke in H; paths H; done.
Qed.

(** A method call through a pointer, taken apart. *)
Lemma method_Some {A} (mt : M W A) p s a s' :
  method mt p s = Some (a, s') ->
  exists rcv mem,
    heap s !! p = Some rcv /\
    mt (mkMem rcv (sworld s) (scalls s)) = Some (a, mem) /\
    s' = mkSys (opts s) (<[p := hd mem]> (heap s)) (handlers s)
               (world mem) (calls mem).
Proof.
  unfold method. intros H.
  destruct (heap s !! p) as [rcv|] eqn:Hp; [|done].
  destruct (mt _) as [[a' mem]|] eqn:Hm; [|done].
  injection H as <- <-. eauto.
Qed.

Lemma method_wf {A} (mt : M W A) p s a s' :
  (forall m r m', mt m = Some (r, m') -> name (hd m') = name (hd m)) ->
  method mt p s = Some (a, s') ->
  wf s -> wf s' /\ handlers s' = handlers s.
Proof.
  intros Hname H Hwf.
  destruct (method_Some _ _ _ _ _ H) as (rcv & mem & Hp & Hm & ->).
  split; [|done]. intros nm q Hq. simpl in *.
  destruct (Hwf nm q Hq) as (h & Hh & Hn).
  destruct (decide (q = p)) as [->|Hne].
  - exists (hd mem). split.
    + apply list_lookup_insert_eq. by eapply lookup_lt_Some.
    + rewrite (Hname _ _ _ Hm). simpl. congruence.
  - exists h. split; [|done]. by rewrite list_lookup_insert_ne.
Qed.

Lemma Get_known nm p s :
  handlers s !! nm = Some p -> Get nm s = (p, s).
Proof. intros Hp. unfold Get. by rewrite Hp. Qed.

Lemma Get_wf nm s : wf s -> wf (Get nm s).2.
Proof.
  intros Hwf. unfold Get.
  destruct (handlers s !! nm) as [p|] eqn:Hp; [done|]. simpl.
  intros nm' q Hq. simpl in *.
  destruct (decide (nm' = nm)) as [->|Hne].
  - rewrite lookup_insert_eq in Hq. injection Hq as <-.
    eexists. split.
    { rewrite lookup_app_r by lia. by rewrite Nat.sub_diag. }
    reflexivity.
  - rewrite lookup_insert_ne in Hq by done.
    destruct (Hwf nm' q Hq) as (h & Hh & Hn).
    exists h. split; [|done]. by apply lookup_app_l_Some.
Qed.


(** A step that is not a [Get] is a method called through a pointer. *)
Lemma step_as_invoke op s e s' :
  step op s = Some (e, s') ->
  (forall nm, op <> OGet nm) ->
  exists mt q, method (invoke (opts s) q mt) q s = Some (tt, s').
Proof.
  intros H Hop. destruct op as [nm|q|q|q]; simpl in H.
  - by destruct (Hop nm).
  - exists MRunStart, q. unfold method, invoke, bind, ret in *.
    destruct (heap s !! q); [|done].
    destruct (RunStart _ _ _) as [[? ?]|]; [|done]. by injection H as <- <-.
  - exists MRunFinish, q. simpl.
    destruct (method _ q s) as [[[] s1]|]; [|done]. by injection H as <- <-.
  - exists MStopIfPaused, q. simpl.
    destruct (method _ q s) as [[[] s1]|]; [|done]. by injection H as <- <-.
Qed.

Lemma step_method_wf op s e s' :
  step op s = Some (e, s') ->
  (forall nm, op <> OGet nm) ->
  wf s -> wf s' /\ handlers s' = handlers s.
Proof.
  intros H Hop Hwf.
  destruct (step_as_invoke _ _ _ _ H Hop) as (mt & q & Hm).
  eapply method_wf; [|done..]. intros m r m'. apply invoke_name.
Qed.

Lemma step_wf op s e s' :
  step op s = Some (e, s') -> wf s ->
  wf s' /\
  (forall nm p, handlers s !! nm = Some p -> handlers s' !! nm = Some p).
Proof.
  intros H Hwf. destruct op as [nm|q|q|q];
    [|destruct (step_method_wf _ _ _ _ H ltac:(done) Hwf) as [? ->]; done..].
  simpl in H. injection H as <- <-. split; [by apply Get_wf|].
  intros nm' p Hp. unfold Get.
  destruct (handlers s !! nm) eqn:Hnm; simpl; [done|].
  rewrite lookup_insert_ne; [done|]. congruence.
Qed.

Lemma step_method_event op s e s' :
  step op s = Some (e, s') ->
  (forall nm, op <> OGet nm) ->
  ev_op e = op /\ forall nm, is_Get nm e = false /\ created nm e = false.
Proof.
  intros H Hop. destruct op as [nm|p|p|p]; simpl in H.
  - by destruct (Hop nm).
  - destruct (method _ p s) as [[r s1]|]; [|done]. injection H as <- <-. done.
  - destruct (method _ p s) as [[r s1]|]; [|done]. injection H as <- <-. done.
  - destruct (method _ p s) as [[r s1]|]; [|done]. injection H as <- <-. done.
Qed.

Lemma step_Get_known nm p s e s' :
  wf s -> handlers s !! nm = Some p ->
  step (OGet nm) s = Some (e, s') ->
  s' = s /\ ev_ret e = RGet p /\ forall nm', created nm' e = false.
Proof.
  intros Hwf Hp H. simpl in H. rewrite (Get_known _ _ _ Hp) in H.
  injection H as <- <-. simpl. split_and!; [done..|].
  intros nm'. unfold created. simpl.
  destruct (Hwf _ _ Hp) as (h & -> & _). done.
Qed.

Lemma step_Get_new nm s e s' :
  handlers s !! nm = None ->
  step (OGet nm) s = Some (e, s') ->
  let p := length (heap s) in
  handlers s' !! nm = Some p /\ ev_ret e = RGet p /\
  created nm e = true /\
  ev_post e = Some (mkHandler nm None None Unitialized 0 [] "").
Proof.
  intros Hp H. simpl in H. unfold Get in H. rewrite Hp in H. simpl in H.
  injection H as <- <-. simpl. split_and!.
  - by rewrite lookup_insert_eq.
  - done.
  - unfold created. simpl. rewrite lookup_ge_None_2 by lia.
    by rewrite bool_decide_eq_true.
  - rewrite lookup_app_r by lia. by rewrite Nat.sub_diag.
Qed.

Lemma step_Get_other nm nm' s e s' :
  nm' <> nm ->
  step (OGet nm') s = Some (e, s') ->
  is_Get nm e = false /\ created nm e = false /\
  handlers s' !! nm = handlers s !! nm.
Proof.
  intros Hne H. simpl in H. injection H as <- <-.
  unfold is_Get, created. simpl.
  rewrite bool_decide_eq_false_2 by done. split_and!.
  - done.
  - by destruct (heap s !! _).
  - unfold Get. destruct (handlers s !! nm'); simpl; [done|].
    by rewrite lookup_insert_ne.
Qed.

Lemma run_cons op ops s es s' :
  run (op :: ops) s = Some (es, s') ->
  exists e s1 es1,
    step op s = Some (e, s1) /\ run ops s1 = Some (es1, s') /\ es = e :: es1.
Proof.
  simpl. intros H.
  destruct (step op s) as [[e s1]|] eqn:Hs; [|done].
  destruct (run ops s1) as [[es1 s2]|] eqn:Hr; [|done].
  injection H as <- <-. by exists e, s1, es1.
Qed.

Lemma run_known nm p ops : forall s es s',
  wf s -> handlers s !! nm = Some p ->
  run ops s = Some (es, s') ->
  wf s' /\ handlers s' !! nm = Some p /\
  (forall e, e ∈ es -> is_Get nm e = true -> ev_ret e = RGet p) /\
  (forall e, e ∈ es -> created nm e = false) /\
  creations nm es = 0%nat.
Proof.
  induction ops as [|op ops IH]; intros s es s' Hwf Hp H.
  - injection H as <- <-. split_and!; try done; intros e He; by apply elem_of_nil in He.
  - destruct (run_cons _ _ _ _ _ H) as (e & s1 & es1 & Hs & Hr & ->).
    destruct (step_wf _ _ _ _ Hs Hwf) as [Hwf1 Hmono].
    destruct (IH _ _ _ Hwf1 (Hmono _ _ Hp) Hr) as (Hwf' & Hp' & Hret & Hcr & Hn).
    assert (He : (is_Get nm e = true -> ev_ret e = RGet p) /\ created nm e = false).
    { destruct op as [nm'|q|q|q].
      - destruct (decide (nm' = nm)) as [->|Hne].
        + destruct (step_Get_known _ _ _ _ _ Hwf Hp Hs) as (_ & ? & ?). done.
        + destruct (step_Get_other _ _ _ _ _ Hne Hs) as (Hg & ? & _).
          rewrite Hg. done.
      - destruct (step_method_event _ _ _ _ Hs) as [_ Hm]; [done|].
        destruct (Hm nm) as [-> ->]. done.
      - destruct (step_method_event _ _ _ _ Hs) as [_ Hm]; [done|].
        destruct (Hm nm) as [-> ->]. done.
      - destruct (step_method_event _ _ _ _ Hs) as [_ Hm]; [done|].
        destruct (Hm nm) as [-> ->]. done. }
    destruct He as [He1 He2].
    split_and!; try done.
    + intros e' [->|He']%elem_of_cons; [done|by apply Hret].
    + intros e' [->|He']%elem_of_cons; [done|by apply Hcr].
    + simpl. by rewrite He2, Hn.
Qed.

Lemma run_unknown nm ops : forall s es s',
  wf s -> handlers s !! nm = None ->
  run ops s = Some (es, s') ->
  wf s' /\
  (((OGet nm ∉ ops) /\ handlers s' !! nm = None) \/
   ((OGet nm ∈ ops) /\
    exists p, handlers s' !! nm = Some p /\
      (forall e, e ∈ es -> is_Get nm e = true -> ev_ret e = RGet p) /\
      creations nm es = 1%nat /\
      (forall e, e ∈ es -> created nm e = true ->
         ev_post e = Some (mkHandler nm None None Unitialized 0 [] "")))).
Proof.
  induction ops as [|op ops IH]; intros s es s' Hwf Hp H.
  - injection H as <- <-. split; [done|]. left. split; [|done].
    apply not_elem_of_nil.
  - destruct (run_cons _ _ _ _ _ H) as (e & s1 & es1 & Hs & Hr & ->).
    destruct (step_wf _ _ _ _ Hs Hwf) as [Hwf1 Hmono].
    destruct (decide (op = OGet nm)) as [->|Hop].
    + destruct (step_Get_new _ _ _ _ Hp Hs) as (Hp1 & Hret & Hcr & Hpost).
      destruct (run_known _ _ _ _ _ _ Hwf1 Hp1 Hr)
        as (Hwf' & Hp' & Hret' & Hcr' & Hn).
      split; [done|]. right. split; [apply elem_of_cons; by left|].
      eexists. split_and!; [done| | |].
      * intros e' [->|He']%elem_of_cons; [done|by apply Hret'].
      * simpl. by rewrite Hcr, Hn.
      * intros e' [->|He']%elem_of_cons; [done|].
        rewrite (Hcr' _ He'). done.
    + assert (He : is_Get nm e = false /\ created nm e = false /\
                   handlers s1 !! nm = None).
      { destruct op as [nm'|q|q|q];
          [|destruct (step_method_event _ _ _ _ Hs ltac:(done)) as [_ He];
            destruct (He nm) as [-> ->];
            destruct (step_method_wf _ _ _ _ Hs ltac:(done) Hwf) as [_ ->];
            done..].
        assert (Hne : nm' <> nm) by congruence.
        destruct (step_Get_other _ _ _ _ _ Hne Hs) as (? & ? & ->). done. }
      destruct He as (Hg & Hcr & Hp1).
      destruct (IH _ _ _ Hwf1 Hp1 Hr)
        as [Hwf' [[Hnin Hp']|[Hin (p & Hp' & Hret & Hn & Hpost)]]].
      * split; [done|]. left. split; [|done].
        intros [?|?]%elem_of_cons; done.
      * split; [done|]. right. split; [apply elem_of_cons; by right|].
        exists p. split_and!; [done| | |].
        -- intros e' [->|He']%elem_of_cons; [congruence|by apply Hret].
        -- simpl. by rewrite Hcr, Hn.
        -- intros e' [->|He']%elem_of_cons; [congruence|by apply Hpost].
Qed.

Lemma NewHandlerSet_wf o w : wf (NewHandlerSet o w).
Proof. intros nm p Hp. simpl in Hp. by rewrite lookup_empty in Hp. Qed.


(** ** The invariant along a run *)

Lemma sys_inv_ext s n n' pd pd' lk lk' tn tn' :
  n = n' -> (forall p, pd p = pd' p) -> (forall p, lk p = lk' p) ->
  (forall p, tn p = tn' p) ->
  sys_inv s n pd lk tn -> sys_inv s n' pd' lk' tn'.
Proof.
  intros -> Hpd Hlk Htn Hi p. specialize (Hi p).
  by rewrite <- Hpd, <- Hlk, <- Htn.
Qed.

Lemma method_inv {A} (mt : M W A) q s a s' n pd lk tn pd' lk' tn' :
  method mt q s = Some (a, s') ->
  0 <= n ->
  sys_inv s n pd lk tn ->
  (forall p, p <> q -> pd' p = pd p /\ lk' p = lk p /\ tn' p = tn p) ->
  (forall rcv mem,
     heap s !! q = Some rcv -> heap s' !! q = Some (hd mem) ->
     mt (mkMem rcv (sworld s) (scalls s)) = Some (a, mem) ->
     hinv n (pd q) (lk q) (tn q) rcv ->
     hinv (n + 1) (pd' q) (lk' q) (tn' q) (hd mem)) ->
  sys_inv s' (n + 1) pd' lk' tn'.
Proof.
  intros H Hn Hi Hother Hq p.
  destruct (method_Some _ _ _ _ _ H) as (rcv & mem & Hrcv & Hm & ->).
  simpl in *.
  assert (Hlt : (q < length (heap s))%nat) by by eapply lookup_lt_Some.
  destruct (decide (p = q)) as [->|Hne].
  - rewrite list_lookup_insert_eq by done.
    apply (Hq rcv mem); try done.
    + by apply list_lookup_insert_eq.
    + specialize (Hi q). by rewrite Hrcv in Hi.
  - rewrite list_lookup_insert_ne by done.
    destruct (Hother p Hne) as (-> & -> & ->).
    specialize (Hi p). destruct (heap s !! p); [|done].
    eapply hinv_mono; [|done]. lia.
Qed.

Lemma taint_after_id (p : ptr) e t :
  cold_failure_left_Running e = false -> counted p e = false ->
  taint_after p e t = t.
Proof.
  intros Hc Hn. unfold taint_after.
  by rewrite Hc, Hn, andb_false_r, andb_true_r.
Qed.

Lemma step_inv op s e s' n pd lk tn :
  step op s = Some (e, s') ->
  allowed e pd = true ->
  0 <= n < int_max ->
  sys_inv s n pd lk tn ->
  sys_inv s' (n + 1) (pend_after e pd)
          (fun p => lk p + if leak_at p e then 1 else 0)
          (fun p => taint_after p e (tn p)).
Proof.
  intros H Hal Hn Hi. destruct op as [nm|q|q|q]; simpl in H.
  - injection H as <- <-. intros p.
    rewrite taint_after_id by done.
    unfold pend_after, leak_at. simpl. rewrite Z.add_0_r.
    specialize (Hi p). unfold Get.
    destruct (handlers s !! nm); simpl.
    + destruct (heap s !! p); [|done]. eapply hinv_mono; [|done]. lia.
    + destruct (decide (p < length (heap s))%nat) as [Hlt|Hge].
      * rewrite lookup_app_l by done.
        destruct (heap s !! p) eqn:Hp; [eapply hinv_mono; [|done]; lia|].
        apply lookup_ge_None in Hp. lia.
      * rewrite (lookup_ge_None_2 (heap s) p) in Hi by lia.
        destruct Hi as (-> & -> & ->).
        rewrite lookup_app_r by lia.
        destruct (p - length (heap s))%nat as [|k] eqn:Hk; simpl.
        -- apply hinv_fresh. lia.
        -- done.
  - destruct (method _ q s) as [[[ch err] s1]|] eqn:Hm; [|done].
    injection H as <- <-.
    eapply (method_inv _ _ _ _ _ _ _ _ _ _ _ _ Hm); [lia|done| |].
    + intros p Hne.
      unfold taint_after, counted, pend_after, leak_at, concerns, bump. simpl.
      rewrite (bool_decide_eq_false_2 (q = p)) by congruence.
      destruct err; simpl.
      * destruct (heap s !! q), (heap s1 !! q); simpl;
          by rewrite ?Z.add_0_r, ?andb_true_r.
      * rewrite decide_False by done.
        by rewrite ?Z.add_0_r, ?andb_true_r.
    + intros rcv mem Hrcv Hpost Hrun Hh.
      pose proof (RunStart_hinv _ _ _ _ _ _ _ _ _ _ _ _ Hh (proj2 Hn) Hrun) as Hr.
      simpl in Hr.
      unfold taint_after, counted, pend_after, leak_at, concerns,
        cold_failure_left_Running, bump.
      simpl. rewrite Hrcv, Hpost. rewrite (bool_decide_eq_true_2 (q = q)) by done.
      destruct err; simpl.
      * destruct (bool_decide (runners (hd mem) = runners rcv)); simpl.
        -- rewrite Z.add_0_r, !andb_true_r. by rewrite orb_comm.
        -- by rewrite !andb_false_r.
      * rewrite decide_True by done. by rewrite ?Z.add_0_r, ?andb_false_r.
  - destruct (method _ q s) as [[[] s1]|] eqn:Hm; [|done].
    injection H as <- <-.
    unfold allowed in Hal. simpl in Hal. apply bool_decide_eq_true in Hal.
    eapply (method_inv _ _ _ _ _ _ _ _ _ _ _ _ Hm); [lia|done| |].
    + intros p Hne. rewrite taint_after_id by done.
      unfold pend_after, leak_at, bump. simpl.
      rewrite decide_False by done.
      by rewrite ?Z.add_0_r.
    + intros rcv mem Hrcv Hpost Hrun Hh. rewrite taint_after_id by done.
      unfold pend_after, leak_at, bump.
      simpl. rewrite decide_True by done.
      rewrite ?Z.add_0_r.
      replace (pd q + -1) with (pd q - 1) by lia.
      eapply RunFinish_hinv; [done|lia|done|done].
  - destruct (method _ q s) as [[[] s1]|] eqn:Hm; [|done].
    injection H as <- <-.
    eapply (method_inv _ _ _ _ _ _ _ _ _ _ _ _ Hm); [lia|done| |].
    + intros p Hne. rewrite taint_after_id by done.
      unfold pend_after, leak_at. simpl.
      by rewrite ?Z.add_0_r.
    + intros rcv mem Hrcv Hpost Hrun Hh. rewrite taint_after_id by done.
      unfold pend_after, leak_at.
      simpl. rewrite ?Z.add_0_r.
      by eapply StopIfPaused_hinv.
Qed.

Lemma run_inv ops : forall s es s' n pd lk tn,
  run ops s = Some (es, s') ->
  follows_contract pd es = true ->
  0 <= n -> n + Z.of_nat (length ops) <= int_max ->
  sys_inv s n pd lk tn ->
  sys_inv s' (n + Z.of_nat (length es)) (pending pd es)
          (fun p => lk p + leaks p es) (fun p => taint_from (tn p) p es).
Proof.
  induction ops as [|op ops IH]; intros s es s' n pd lk tn H Hc Hn Hb Hi.
  - injection H as <- <-. simpl.
    eapply sys_inv_ext; [| | | |exact Hi]; intros; simpl; try done; lia.
  - destruct (run_cons _ _ _ _ _ H) as (e & s1 & es1 & Hs & Hr & ->).
    simpl in Hc. apply andb_true_iff in Hc as [Hal Hc].
    rewrite length_cons, Nat2Z.inj_succ in Hb.
    assert (Hn1 : 0 <= n < int_max) by lia.
    assert (Hn2 : 0 <= n + 1) by lia.
    assert (Hb2 : n + 1 + Z.of_nat (length ops) <= int_max) by lia.
    assert (Hi1 := step_inv _ _ _ _ _ _ _ _ Hs Hal Hn1 Hi).
    assert (Hi2 := IH _ _ _ _ _ _ _ Hr Hc Hn2 Hb2 Hi1).
    eapply sys_inv_ext; [| | | |exact Hi2]; intros; simpl.
    + lia.
    + done.
    + lia.
    + done.
Qed.

Lemma NewHandlerSet_inv o w :
  sys_inv (NewHandlerSet o w) 0 (fun _ => 0) (fun _ => 0) (fun _ => false).
Proof. intros p. simpl. done. Qed.

Lemma invoke_shape o self mt m m' :
  shape (hd m) -> invoke o self mt m = Some (tt, m') -> shape (hd m').
Proof.
  destruct m as [h w cs]. simpl. intros Hs H.
  destruct mt; unfold invoke in H; paths H; unfold shape in *; simpl in *;
    destruct_and?; split; intros; simpl in *; forward;
    try done; try congruence;
    try (exfalso; match goal with Hn : ~ _ |- _ => apply Hn; congruence end).
Qed.

Lemma step_shape op s e s' :
  step op s = Some (e, s') ->
  (forall p h, heap s !! p = Some h -> shape h) ->
  (forall p h, heap s' !! p = Some h -> shape h).
Proof.
  intros H Hs p h Hp. destruct op as [nm|q|q|q];
    [|destruct (step_as_invoke _ _ _ _ H ltac:(done)) as (mt & q' & Hm);
      destruct (method_Some _ _ _ _ _ Hm) as (rcv & mem & Hrcv & Hrun & ->);
      simpl in Hp; destruct (decide (p = q')) as [->|Hne];
      [ rewrite list_lookup_insert_eq in Hp by (by eapply lookup_lt_Some);
        injection Hp as <-; eapply invoke_shape; [|done]; simpl; eauto
      | rewrite list_lookup_insert_ne in Hp by (by idtac); eauto ]..].
  simpl in H. injection H as <- <-. unfold Get in Hp.
  destruct (handlers s !! nm); simpl in Hp; [eauto|].
  apply lookup_app_Some in Hp as [Hp|[_ Hp]]; [eauto|].
  apply list_lookup_singleton_Some in Hp as [_ <-]. by split.
Qed.

(** Every handler of every run has the shape the theorems on single calls
    assume: a [Paused] handler has a sandbox, and a handler with a sandbox
    has its code fetched. *)
Lemma run_shape o w ops es s p h :
  run ops (NewHandlerSet o w) = Some (es, s) ->
  heap s !! p = Some h ->
  shape h.
Proof.
  assert (Hgen : forall ops s0 es s,
    run ops s0 = Some (es, s) ->
    (forall p h, heap s0 !! p = Some h -> shape h) ->
    (forall p h, heap s !! p = Some h -> shape h)).
  { clear. induction ops as [|op ops IH]; intros s0 es s H Hs.
    - by injection H as <- <-.
    - destruct (run_cons _ _ _ _ _ H) as (e & s1 & es1 & Hst & Hr & ->).
      eapply IH; [done|]. by eapply step_shape. }
  intros H Hp. eapply Hgen; [done| |done].
  intros q h' Hq. simpl in Hq. by rewrite lookup_nil in Hq.
Qed.

(** ** Calls on the handlers of a run *)

(** C5. [StopIfPaused] changes nothing and calls nothing unless the state is
    [Paused].  When it is, unpause is called, then stop; if unpause fails, or
    unpause succeeds and stop fails, the failure is logged and the state
    stays [Paused]; when both succeed the state becomes [Stopped].  The call
    returns normally in every case.  The [Paused] case is stated of a handler
    with a sandbox: every [Paused] handler of every run has one. *)
Theorem StopIfPaused_only_when_Paused :
  (forall h w cs,
     state h <> Paused ->
     StopIfPaused (mkMem h w cs) = Some (tt, mkMem h w cs)) /\
  (forall h w cs sb,
     state h = Paused -> sandbox h = Some sb ->
     let u := sandbox_Unpause sb w in
     let s := sandbox_Stop sb u.2 in
     StopIfPaused (mkMem h w cs) =
       Some (tt,
         match u.1 with
         | Some err =>
             mkMem h u.2
               (cs ++ [(CUnpause sb, Some err);
                       (CLog "Could not unpause %v to kill it!  Error: %v\n" (name h) err, None)])
         | None =>
             match s.1 with
             | Some err =>
                 mkMem h s.2
                   (cs ++ [(CUnpause sb, None); (CStop sb, Some err);
                           (CLog "Could not kill %v after unpausing!  Error: %v\n" (name h) err, None)])
             | None =>
                 mkMem (set_state Stopped h) s.2
                   (cs ++ [(CUnpause sb, None); (CStop sb, None)])
             end
         end)) /\
  (forall o w ops es (s : Sys W) p h,
     run ops (NewHandlerSet o w) = Some (es, s) ->
     heap s !! p = Some h ->
     state h = Paused -> is_Some (sandbox h)).
Proof.
  split_and!.
  - apply StopIfPaused_not_Paused.
  - apply StopIfPaused_Paused.
  - intros o w ops es s p h Hrun Hp Hst.
    destruct (run_shape _ _ _ _ _ _ _ Hrun Hp) as [Hnone _].
    destruct (sandbox h); [done|]. specialize (Hnone eq_refl). congruence.
Qed.

(** C6. On a controller that has a sandbox and is [Paused]: [RunStart]
    calls unpause; if that fails it returns the error and leaves the
    controller as it was, without calling the LRU; otherwise it removes the
    controller from the LRU, sets the state to [Running], adds one to the
    runner count and returns what the sandbox's channel call returns.  This
    is stated of a handler whose code is fetched: every handler of every run
    that has a sandbox has its code fetched. *)
Theorem RunStart_resumes_Paused :
  (forall o self h w cs sb t,
     sandbox h = Some sb -> state h = Paused -> lastPull h = Some t ->
     let u := sandbox_Unpause sb w in
     match u.1 with
     | Some err =>
         RunStart o self (mkMem h w cs) =
           Some ((None, Some (Foreign err)),
                 mkMem h u.2 (cs ++ [(CUnpause sb, Some err)]))
     | None =>
         let c := sandbox_Channel sb (lru_Remove self u.2) in
         RunStart o self (mkMem h w cs) =
           Some ((c.1.1, Foreign <$> c.1.2),
                 mkMem (set_runners (int_add (runners h) 1)
                                    (set_state Running h))
                       c.2
                       (cs ++ [(CUnpause sb, None); (CLruRemove self, None);
                               (CChannel sb, c.1.2)]))
     end) /\
  (forall z, int_min <= z < int_max -> int_add z 1 = z + 1) /\
  (forall o w ops es (s : Sys W) p h,
     run ops (NewHandlerSet o w) = Some (es, s) ->
     heap s !! p = Some h ->
     is_Some (sandbox h) -> is_Some (lastPull h)).
Proof.
  split_and!.
  - apply RunStart_Paused.
  - apply int_add_1.
  - intros o w ops es s p h Hrun Hp [sb Hsb].
    destruct (run_shape _ _ _ _ _ _ _ Hrun Hp) as [_ Hsome].
    destruct (lastPull h); [done|]. exfalso. apply Hsome; congruence.
Qed.

(** C9. After a [StopIfPaused] whose unpause and stop both succeed, the
    state is [Stopped] and the sandbox handle is still set; the next
    [RunStart] then makes one call only, the channel call on that stopped
    sandbox (no fetch, no factory, no start, no unpause), sets the state to
    [Running], adds one to the runner count and returns what the channel
    call returns.  A [Paused] handler of a run has a sandbox and its code
    fetched, as assumed here. *)
Theorem RunStart_after_stop_reuses_sandbox :
  (forall o self h w cs sb t w1 w2,
     state h = Paused -> sandbox h = Some sb -> lastPull h = Some t ->
     sandbox_Unpause sb w = (None, w1) ->
     sandbox_Stop sb w1 = (None, w2) ->
     let m1 := mkMem (set_state Stopped h) w2
                     (cs ++ [(CUnpause sb, None); (CStop sb, None)]) in
     let c := sandbox_Channel sb w2 in
     StopIfPaused (mkMem h w cs) = Some (tt, m1) /\
     sandbox (hd m1) = Some sb /\
     RunStart o self m1 =
       Some ((c.1.1, Foreign <$> c.1.2),
             mkMem (set_runners (int_add (runners h) 1) (set_state Running h))
                   c.2 (calls m1 ++ [(CChannel sb, c.1.2)]))) /\
  (forall o w ops es (s : Sys W) p h,
     run ops (NewHandlerSet o w) = Some (es, s) ->
     heap s !! p = Some h ->
     state h = Paused -> is_Some (sandbox h) /\ is_Some (lastPull h)).
Proof.
  split.
  - intros o self h w cs sb t w1 w2 Hst Hsb Hlp Hu Hs. simpl.
    split; [|split; [done|]].
    + rewrite (StopIfPaused_Paused h w cs sb Hst Hsb).
      rewrite Hu. simpl. rewrite Hs. reflexivity.
    + rewrite (RunStart_with_sandbox_not_Paused o self _ w2 _ sb t); done.
  - intros o w ops es s p h Hrun Hp Hst.
    destruct (run_shape _ _ _ _ _ _ _ Hrun Hp) as [Hnone Hsome].
    destruct (sandbox h) eqn:Hsb.
    + split; [done|]. destruct (lastPull h); [done|].
      exfalso. by apply Hsome.
    + specialize (Hnone eq_refl). congruence.
Qed.

Lemma run_hinv o w ops es s p h :
  run ops (NewHandlerSet o w) = Some (es, s) ->
  follows_contract (fun _ => 0) es = true ->
  Z.of_nat (length ops) <= int_max ->
  heap s !! p = Some h ->
  hinv (Z.of_nat (length es)) (pending (fun _ => 0) es p) (leaks p es)
       (tainted p es) h.
Proof.
  intros H Hc Hb Hp.
  pose proof (run_inv ops _ _ _ 0 _ _ _ H Hc ltac:(lia) ltac:(lia)
                (NewHandlerSet_inv o w) p) as Hi.
  rewrite Hp in Hi. simpl in Hi. by rewrite !Z.add_0_l in Hi.
Qed.

Lemma RunStart_counted_error o self m ch err m' new :
  RunStart o self m = Some ((ch, Some err), m') ->
  calls m' = calls m ++ new ->
  runners (hd m') <> runners (hd m) ->
  exists sb e, last new = Some (CChannel sb, Some e) /\ err = Foreign e.
Proof.
  destruct m as [h w cs]. simpl. intros H Hnew Hr.
  paths H; new_calls Hnew; simpl in *; try done;
    split_channel_error; simplify_eq; eauto.
Qed.

(** C2, as the code has it.  Along every run of calls on one registry in
    which each [RunFinish] follows a [RunStart] on the same handler that
    returned no error and is not finished yet (and shorter than the largest
    [int]), every handler has at every point a runner count of at least 0,
    and a count above 0 only in state [Running].  [Running] goes with a count
    of at least 1, and a count of 0 with [Paused], [Stopped] or
    [Unitialized], on every handler that is not marked: a [RunStart] that
    found no sandbox, failed before counting and left the reported state
    [Running] marks the handler, and the next [RunStart] on it that counts a
    runner takes the mark off.  A marked handler is [Running] with a count
    of 0 and has a sandbox. *)
Theorem runner_count_invariant o w ops es s p h :
  run ops (NewHandlerSet o w) = Some (es, s) ->
  follows_contract (fun _ => 0) es = true ->
  Z.of_nat (length ops) <= int_max ->
  heap s !! p = Some h ->
  0 <= runners h /\
  (0 < runners h -> state h = Running) /\
  (tainted p es = false ->
     (state h = Running -> 1 <= runners h) /\
     (runners h = 0 ->
        state h = Paused \/ state h = Stopped \/ state h = Unitialized)) /\
  (tainted p es = true ->
     state h = Running /\ runners h = 0 /\ sandbox h <> None).
Proof.
  intros H Hc Hb Hp.
  pose proof (run_hinv _ _ _ _ _ _ _ H Hc Hb Hp) as Hi.
  unfold hinv in Hi. destruct_and?. split_and!; [lia|done| |].
  - intros Ht. split; [auto|].
    intros Hz. destruct (state h) eqn:Hst; eauto.
    forward. lia.
  - intros Ht. forward. destruct_and?. split_and!; [done..|].
    intros Hsb. forward. congruence.
Qed.

(** C10. When the channel call at the end of [RunStart] fails, [RunStart]
    returns that error with the state already [Running] and the runner count
    already one higher; an error returned with the count changed is always
    such a failure.  The callers' contract has no [RunFinish] for it: along
    every run that follows the contract, the runner count of a handler is the
    number of its started and unfinished runs plus the number of these
    failures, so each failure stays in the count for good. *)
Theorem RunStart_channel_failure_leaks :
  (forall o self m ch err m' new sb e,
     RunStart o self m = Some ((ch, err), m') ->
     calls m' = calls m ++ new ->
     last new = Some (CChannel sb, Some e) ->
     err = Some (Foreign e) /\ state (hd m') = Running /\
     runners (hd m') = int_add (runners (hd m)) 1) /\
  (forall o self m ch err m' new,
     RunStart o self m = Some ((ch, Some err), m') ->
     calls m' = calls m ++ new ->
     runners (hd m') <> runners (hd m) ->
     exists sb e, last new = Some (CChannel sb, Some e) /\ err = Foreign e) /\
  (forall o w ops es s p h,
     run ops (NewHandlerSet o w) = Some (es, s) ->
     follows_contract (fun _ => 0) es = true ->
     Z.of_nat (length ops) <= int_max ->
     heap s !! p = Some h ->
     runners h = pending (fun _ => 0) es p + leaks p es /\
     0 <= pending (fun _ => 0) es p /\ 0 <= leaks p es /\
     (0 < leaks p es -> state h = Running)).
Proof.
  split_and!.
  - intros. by eapply RunStart_channel_failure.
  - intros. by eapply RunStart_counted_error.
  - intros o w ops es s p h H Hc Hb Hp.
    pose proof (run_hinv _ _ _ _ _ _ _ H Hc Hb Hp) as Hi.
    unfold hinv in Hi. destruct_and?. split_and!; try done.
    intros. forward. done.
Qed.

(** ** No panic on the handlers of a run *)

Lemma RunFinish_total self n pd lk tn h w cs :
  hinv n pd lk tn h -> n <= int_max ->
  is_Some (RunFinish self (mkMem h w cs)).
Proof.
  intros Hi Hn. unfold_method. simpl.
  destruct (decide (int_sub (runners h) 1 = 0)) as [Hz|Hz]; simpl; [|done].
  destruct (sandbox h) eqn:Hsb; simpl.
  { repeat (split_next; simpl; try done). }
  unfold hinv in Hi. destruct_and?. forward.
  rewrite int_sub_1 in Hz; unfold int_min, int_max in *; lia.
Qed.

Lemma StopIfPaused_total h w cs :
  shape h -> is_Some (StopIfPaused (mkMem h w cs)).
Proof.
  intros [Hnone _]. unfold_method. simpl.
  destruct (decide (state h <> Paused)) as [Hst|Hst]; simpl; [done|].
  destruct (sandbox h) eqn:Hsb; simpl.
  - repeat (split_next; simpl; try done).
  - exfalso. apply Hst. rewrite Hnone; done.
Qed.

Lemma method_total {A} (mt : M W A) p s rcv :
  heap s !! p = Some rcv ->
  is_Some (mt (mkMem rcv (sworld s) (scalls s))) ->
  is_Some (method mt p s).
Proof.
  intros Hp [[a mem] Hm]. unfold method. rewrite Hp, Hm. done.
Qed.

(** After a run that follows the callers' contract, every call on a handler
    that [Get] has returned returns: the nil dereferences of [RunFinish] and
    [StopIfPaused] are out of reach. *)
Lemma run_progress o w ops es s op :
  run ops (NewHandlerSet o w) = Some (es, s) ->
  follows_contract (fun _ => 0) es = true ->
  Z.of_nat (length ops) <= int_max ->
  match op with
  | OGet _ => True
  | ORunStart p | ORunFinish p | OStopIfPaused p => is_Some (heap s !! p)
  end ->
  is_Some (step op s).
Proof.
  intros Hrun Hc Hb Hop.
  assert (Hlen : length es = length ops).
  { clear -Hrun. revert Hrun. generalize (NewHandlerSet o w).
    revert es. induction ops as [|op' ops IH]; intros es s0 Hrun.
    - by injection Hrun as <- <-.
    - destruct (run_cons _ _ _ _ _ Hrun) as (e & s1 & es1 & _ & Hr & ->).
      simpl. f_equal. eauto. }
  destruct op as [nm|p|p|p]; simpl.
  - done.
  - destruct Hop as [rcv Hp].
    destruct (method_total (RunStart (opts s) p) p s rcv Hp
                (RunStart_total _ _ _)) as [[r s'] ->]. done.
  - destruct Hop as [rcv Hp].
    pose proof (run_hinv _ _ _ _ _ _ _ Hrun Hc Hb Hp) as Hi.
    destruct (method_total (RunFinish p) p s rcv Hp) as [[r s'] ->]; [|done].
    eapply RunFinish_total; [done|]. rewrite Hlen. done.
  - destruct Hop as [rcv Hp].
    destruct (method_total StopIfPaused p s rcv Hp) as [[r s'] ->]; [|done].
    apply StopIfPaused_total. by eapply run_shape.
Qed.

(** ** The cold start that succeeds *)

(** X1. The cold start that succeeds.  On a handler with no fetch and no
    sandbox, when the fetch, the directory, the factory, the state query and
    the start or unpause the reported state asks for all succeed, and the
    sandbox is a container sandbox if there is a pool manager, [RunStart]
    makes these calls in this order and no other, registers the sandbox for
    fork-enter exactly when there is a pool manager, returns what
    [Channel] returns, and leaves the handler [Running] with one more
    runner, the new sandbox, the time of the fetch and the directory of the
    code; name and code are as they were. *)
Theorem RunStart_cold_success o self h w cs dir w1 w2 sb w3 st w4 :
  lastPull h = None -> sandbox h = None ->
  let sandbox_dir := path_Join [Worker_dir o; "handlers"; name h; "sandbox"] in
  regMgr_Pull (name h) w = (ok dir, w1) ->
  os_MkdirAll sandbox_dir perm_0666 (time_Now w1).2 = (None, w2) ->
  sbFactory_Create dir sandbox_dir w2 = (ok sb, w3) ->
  sandbox_State sb w3 = ((st, None), w4) ->
  let r := match st with
           | Stopped => sandbox_Start sb w4
           | Paused => sandbox_Unpause sb w4
           | _ => (None, w4)
           end in
  r.1 = None ->
  (PoolMgr o = true -> sb_container sb = true) ->
  let c := sandbox_Channel sb
             (if PoolMgr o then poolMgr_ForkEnter sb r.2 else r.2) in
  RunStart o self (mkMem h w cs) =
    Some ((c.1.1, Foreign <$> c.1.2),
          mkMem (mkHandler (name h) (Some sb) (Some (time_Now w1).1) Running
                           (int_add (runners h) 1) (code h) dir)
                c.2
                (cs ++ [(CPull (name h), None);
                        (CMkdirAll sandbox_dir perm_0666, None);
                        (CCreate dir sandbox_dir, None);
                        (CState sb, None)]
                    ++ match st with
                       | Stopped => [(CStart sb, None)]
                       | Paused => [(CUnpause sb, None)]
                       | _ => []
                       end
                    ++ (if PoolMgr o then [(CForkEnter sb, None)] else [])
                    ++ [(CChannel sb, c.1.2)])).
Proof.
  intros Hlp Hsb sandbox_dir Hpull Hmk Hcr Hst r Hr Hpool c.
  subst sandbox_dir r c. unfold_method. simpl.
  rewrite Hlp. simpl. rewrite Hpull. simpl. rewrite Hsb. simpl.
  rewrite Hmk. simpl. rewrite Hcr. simpl. rewrite Hst. simpl.
  destruct st; simpl in *;
    try (destruct (sandbox_Start sb w4) as [[e|] w5]; simpl in *;
         [discriminate|]);
    try (destruct (sandbox_Unpause sb w4) as [[e|] w5]; simpl in *;
         [discriminate|]);
    (destruct (PoolMgr o); simpl; [rewrite (Hpool eq_refl)|]); simpl;
    rewrite ?Hsb; simpl; rewrite <- ?app_assoc; reflexivity.
Qed.

(** ** A run started and finished *)

(** X2. [RunStart] followed by [RunFinish] on a handler that has a sandbox
    and whose code is fetched.  On a [Running] handler with other runners
    the pair only asks for the channel and gives the handler back field for
    field.  On a [Paused] handler without runners whose sandbox resumes, the
    pair resumes the sandbox, takes the handler off the LRU, asks for the
    channel, pauses the sandbox again and puts the handler back on the LRU,
    logging a failure to pause, and gives the handler back field for field.
    On a handler without runners that is not [Paused] the pair asks for the
    channel, pauses the sandbox and puts the handler on the LRU: the handler
    comes back [Paused], its other fields as they were.  In all three the
    result is the same whether [Channel] failed or not.  On a [Paused]
    handler without runners whose sandbox does not resume, [RunStart]
    returns before counting, and [RunFinish] leaves the count at -1. *)
Theorem RunStart_RunFinish_round_trip o self h w cs sb t :
  sandbox h = Some sb -> lastPull h = Some t ->
  (state h = Running -> 1 <= runners h < int_max ->
   let c := sandbox_Channel sb w in
   bind (RunStart o self) (fun _ => RunFinish self) (mkMem h w cs) =
     Some (tt, mkMem h c.2 (cs ++ [(CChannel sb, c.1.2)]))) /\
  (state h = Paused -> runners h = 0 ->
   (sandbox_Unpause sb w).1 = None ->
   let c := sandbox_Channel sb (lru_Remove self (sandbox_Unpause sb w).2) in
   let p := sandbox_Pause sb c.2 in
   bind (RunStart o self) (fun _ => RunFinish self) (mkMem h w cs) =
     Some (tt, mkMem h (lru_Add self p.2)
                 (cs ++ [(CUnpause sb, None); (CLruRemove self, None);
                         (CChannel sb, c.1.2); (CPause sb, p.1)]
                     ++ match p.1 with
                        | Some err =>
                            [(CLog "Could not pause %v!  Error: %v\n" (name h) err, None)]
                        | None => []
                        end
                     ++ [(CLruAdd self, None)]))) /\
  (state h <> Paused -> runners h = 0 ->
   let c := sandbox_Channel sb w in
   let p := sandbox_Pause sb c.2 in
   bind (RunStart o self) (fun _ => RunFinish self) (mkMem h w cs) =
     Some (tt, mkMem (set_state Paused h) (lru_Add self p.2)
                 (cs ++ [(CChannel sb, c.1.2); (CPause sb, p.1)]
                     ++ match p.1 with
                        | Some err =>
                            [(CLog "Could not pause %v!  Error: %v\n" (name h) err, None)]
                        | None => []
                        end
                     ++ [(CLruAdd self, None)]))) /\
  (state h = Paused -> runners h = 0 ->
   forall e, (sandbox_Unpause sb w).1 = Some e ->
   bind (RunStart o self) (fun _ => RunFinish self) (mkMem h w cs) =
     Some (tt, mkMem (set_runners (-1) h) (sandbox_Unpause sb w).2
                     (cs ++ [(CUnpause sb, Some e)]))).
Proof.
  intros Hsb Hlp. destruct h as [nm sbx lp st rn cd cdir]. simpl in *. subst.
  split_and!.
  - intros -> Hr. simpl.
    assert (Ha : int_add rn 1 = rn + 1).
    { apply int_add_1. unfold int_min, int_max in *. lia. }
    assert (Hs : int_sub (rn + 1) 1 = rn).
    { rewrite int_sub_1; unfold int_min, int_max in *; lia. }
    unfold_method. simpl. rewrite Ha, Hs.
    destruct (decide (rn = 0)); [lia|]. reflexivity.
  - intros -> -> Hu. simpl.
    unfold_method. simpl. rewrite Hu. simpl.
    change (int_sub (int_add 0 1) 1) with 0. simpl.
    destruct (sandbox_Pause sb _) as [[e|] w5]; simpl;
      rewrite <- ?app_assoc; reflexivity.
  - intros Hst ->. simpl.
    unfold_method. simpl.
    destruct st; try done; simpl;
      change (int_sub (int_add 0 1) 1) with 0; simpl;
      destruct (sandbox_Pause sb _) as [[e|] w5]; simpl;
      rewrite <- ?app_assoc; reflexivity.
  - intros -> -> e Hu. simpl.
    unfold_method. simpl. rewrite Hu. simpl. reflexivity.
Qed.

(** ** Runners counted one by one *)

(** X3. [n] calls of [RunStart] in a row on a handler that has a sandbox and
    is not [Paused] all return, add exactly [n] to the runners as long as
    the count stays in the range of an int, keep the sandbox, leave the
    handler [Running], and call nothing but [Channel] on that sandbox, once
    for each call. *)
Theorem RunStart_counts_each_call o self n : forall h w cs sb t,
  sandbox h = Some sb -> lastPull h = Some t -> state h <> Paused ->
  int_min <= runners h -> runners h + Z.of_nat n <= int_max ->
  exists m' new,
    invoke_all o self (replicate n MRunStart) (mkMem h w cs) = Some (tt, m') /\
    calls m' = cs ++ new /\
    length new = n /\ Forall (fun ce => ce.1 = CChannel sb) new /\
    runners (hd m') = runners h + Z.of_nat n /\
    sandbox (hd m') = Some sb /\
    (n <> 0%nat -> state (hd m') = Running).
Proof.
  induction n as [|n IH]; intros h w cs sb t Hsb Hlp Hst Hlo Hhi.
  - exists (mkMem h w cs), []. simpl. rewrite app_nil_r.
    split_and!; try done. lia.
  - pose proof (RunStart_with_sandbox_not_Paused o self h w cs sb t
                  Hsb Hlp Hst) as Hrun. simpl in Hrun.
    assert (Ha : int_add (runners h) 1 = runners h + 1).
    { apply int_add_1. lia. }
    destruct (IH (set_runners (int_add (runners h) 1) (set_state Running h))
                 (sandbox_Channel sb w).2
                 (cs ++ [(CChannel sb, (sandbox_Channel sb w).1.2)]) sb t)
      as (m' & new & Hall & Hc & Hlen & Hf & Hr & Hs & Hrun');
      simpl; try done; try lia.
    exists m', ((CChannel sb, (sandbox_Channel sb w).1.2) :: new).
    simpl. unfold bind at 1. unfold bind at 1. rewrite Hrun. unfold ret.
    simpl in *. split_and!; try done.
    + rewrite Hc, <- app_assoc. done.
    + by rewrite Hlen.
    + by constructor.
    + lia.
    + intros _. destruct n.
      * simpl in Hall. injection Hall as <-. done.
      * by apply Hrun'.
Qed.

(** ** What each method calls *)

(** X4. What each method can call.  [RunStart] never pauses or stops a
    sandbox, never adds to the LRU and never logs; [RunFinish] calls nothing
    but pause, the LRU's add and the logger; [StopIfPaused] calls nothing
    but unpause, stop and the logger, so it never touches the LRU. *)
Theorem methods_call_footprint :
  (forall o self m r m' new,
     RunStart o self m = Some (r, m') -> calls m' = calls m ++ new ->
     only_calls RunStart_calls new = true) /\
  (forall self m r m' new,
     RunFinish self m = Some (r, m') -> calls m' = calls m ++ new ->
     only_calls RunFinish_calls new = true) /\
  (forall m r m' new,
     StopIfPaused m = Some (r, m') -> calls m' = calls m ++ new ->
     only_calls StopIfPaused_calls new = true).
Proof.
  split_and!.
  - intros o self [h w cs] r m' new H Hnew.
    paths H; new_calls Hnew; reflexivity.
  - intros self [h w cs] r m' new H Hnew.
    paths H; simpl in Hnew; rewrite <- ?app_assoc in Hnew;
      first [ apply app_inv_head in Hnew
            | rewrite <- (app_nil_r cs) in Hnew at 1;
              apply app_inv_head in Hnew ];
      subst; reflexivity.
  - intros [h w cs] r m' new H Hnew.
    paths H; simpl in Hnew; rewrite <- ?app_assoc in Hnew;
      first [ apply app_inv_head in Hnew
            | rewrite <- (app_nil_r cs) in Hnew at 1;
              apply app_inv_head in Hnew ];
      subst; reflexivity.
Qed.

(** ** One sandbox for each handler *)

Lemma creates_app l1 l2 : creates (l1 ++ l2) = (creates l1 + creates l2)%nat.
Proof. unfold creates. by rewrite List.filter_app, length_app. Qed.

Lemma invoke_sandbox o self mt m m' :
  invoke o self mt m = Some (tt, m') ->
  exists new,
    calls m' = calls m ++ new /\
    match sandbox (hd m) with
    | Some sb =>
        sandbox (hd m') = Some sb /\ creates new = 0%nat /\
        made_sandbox new = false
    | None =>
        creates new = match sandbox (hd m') with Some _ => 1%nat | None => 0%nat end
    end.
Proof.
  destruct m as [h w cs]. intros H.
  destruct mt; unfold invoke in H; paths H; simpl;
    rewrite <- ?app_assoc;
    first [ eexists; split; [reflexivity|]
          | exists []; split; [by rewrite app_nil_r|] ];
    repeat match goal with
           | Hs : sandbox _ = _ |- _ => rewrite Hs
           end; simpl; try done;
    destruct (sandbox h); done.
Qed.

(** X5. Along every sequence of [RunStart], [RunFinish] and [StopIfPaused]
    calls on one handler that returns, a handler that has a sandbox keeps
    that very sandbox, which is what [Sandbox] returns at the end, and the
    factory is not called; a handler that had none has had at most one
    made, and exactly one if it has a sandbox at the end. *)
Theorem sandbox_made_once o self mts : forall m m',
  invoke_all o self mts m = Some (tt, m') ->
  exists new,
    calls m' = calls m ++ new /\
    match sandbox (hd m) with
    | Some sb =>
        sandbox (hd m') = Some sb /\ creates new = 0%nat /\
        made_sandbox new = false /\
        Sandbox_of m' = Some (Some sb, m')
    | None =>
        creates new = match sandbox (hd m') with Some _ => 1%nat | None => 0%nat end
    end.
Proof.
  induction mts as [|mt mts IH]; intros m m' H.
  - injection H as <-. exists []. rewrite app_nil_r. split; [done|].
    unfold Sandbox_of, bind, get_h, ret.
    destruct (sandbox (hd m)) eqn:Hs; simpl; rewrite ?Hs; done.
  - simpl in H. unfold bind in H.
    destruct (invoke o self mt m) as [[[] m1]|] eqn:Hm; [|done].
    destruct (invoke_sandbox _ _ _ _ _ Hm) as (new1 & Hc1 & H1).
    destruct (IH _ _ H) as (new2 & Hc2 & H2).
    exists (new1 ++ new2). split; [by rewrite Hc2, Hc1, app_assoc|].
    rewrite creates_app. unfold made_sandbox in *. rewrite existsb_app.
    destruct (sandbox (hd m)) as [sb|].
    + destruct H1 as (Hs1 & Hn1 & Hm1). rewrite Hs1 in H2.
      destruct H2 as (Hs2 & Hn2 & Hm2 & Hacc).
      by rewrite Hn1, Hn2, Hm1, Hm2.
    + destruct (sandbox (hd m1)) as [sb1|].
      * destruct H2 as (-> & -> & _). by rewrite H1.
      * by rewrite H1, H2.
Qed.

(** ** Names and handlers *)

Lemma step_listed op s e s' :
  step op s = Some (e, s') -> wf s -> listed s -> listed s'.
Proof.
  intros H Hwf [Hreg Hsize].
  assert ((exists nm, op = OGet nm) \/ (forall nm, op <> OGet nm)) as [[nm ->]|Hop]
    by (destruct op; [left; by eexists|by right..]).
  - simpl in H. injection H as <- <-. unfold Get.
    destruct (handlers s !! nm) eqn:Hnm; simpl; [done|].
    split; simpl.
    + intros p h [Hp|[Hge Hp]]%lookup_app_Some.
      * rewrite lookup_insert_ne; [eauto|].
        intros ->. rewrite (Hreg _ _ Hp) in Hnm. done.
      * apply list_lookup_singleton_Some in Hp as [Hz <-]. simpl.
        rewrite lookup_insert_eq. f_equal. lia.
    + rewrite length_app, map_size_insert_None by done. simpl. lia.
  - destruct (step_as_invoke _ _ _ _ H) as (mt & q & Hm).
    { done. }
    destruct (method_Some _ _ _ _ _ Hm) as (rcv & mem & Hrcv & Hrun & ->).
    apply invoke_name in Hrun. simpl in Hrun.
    split; simpl; [|by rewrite length_insert].
    intros p h Hp. destruct (decide (p = q)) as [->|Hne].
    + rewrite list_lookup_insert_eq in Hp by (by eapply lookup_lt_Some).
      injection Hp as <-. rewrite Hrun. eauto.
    + rewrite list_lookup_insert_ne in Hp by done. eauto.
Qed.

Lemma run_listed ops : forall s es s',
  run ops s = Some (es, s') -> wf s -> listed s ->
  wf s' /\ listed s'.
Proof.
  induction ops as [|op ops IH]; intros s es s' H Hwf Hreg.
  - by injection H as <- <-.
  - destruct (run_cons _ _ _ _ _ H) as (e & s1 & es1 & Hs & Hr & ->).
    destruct (step_wf _ _ _ _ Hs Hwf) as [Hwf1 _].
    eapply IH; [done..|]. by eapply step_listed.
Qed.

Lemma NewHandlerSet_listed o w : listed (NewHandlerSet o w).
Proof. split; simpl; [|done]. intros p h Hp. by rewrite lookup_nil in Hp. Qed.

(** X6. After every run on a new registry, the names in the map are those
    [Get] was called for, a name maps to a pointer exactly when the handler
    at that pointer has that name, so that no handler is allocated outside
    the map and no two names share a handler, and there are as many
    handlers as names. *)
Theorem registry_bijection o w ops es s :
  run ops (NewHandlerSet o w) = Some (es, s) ->
  (forall nm, is_Some (handlers s !! nm) <-> OGet nm ∈ ops) /\
  (forall nm p,
     handlers s !! nm = Some p <->
     exists h, heap s !! p = Some h /\ name h = nm) /\
  length (heap s) = size (handlers s).
Proof.
  intros H.
  destruct (run_listed _ _ _ _ H (NewHandlerSet_wf o w)
              (NewHandlerSet_listed o w)) as [Hwf [Hreg Hsize]].
  split_and!; [|split|done].
  - intros nm.
    destruct (run_unknown nm ops _ _ _ (NewHandlerSet_wf o w) (lookup_empty _) H)
      as [_ [[Hnin Hn]|[Hin (p & Hp & _)]]].
    + rewrite Hn. split; [by intros [? ?]|done].
    + rewrite Hp. split; [done|by eexists].
  - apply Hwf.
  - intros (h & Hp & <-). by apply Hreg.
Qed.

(** ** [Dump] *)

(** X7. After every run on a new registry [Dump] returns, without a nil
    dereference, and prints the heading followed by one line for each name
    in the map, the line giving the name and the state its handler has at
    that time, and no other line. *)
Theorem Dump_lists_handlers (state_String : HandlerState -> string)
    o w ops es s :
  run ops (NewHandlerSet o w) = Some (es, s) ->
  exists lines,
    Dump state_String s = Some (("HANDLERS:\n", []) :: lines) /\
    length lines = size (handlers s) /\
    forall nm st,
      ("> %v: %v\n", [nm; st]) ∈ lines <->
      exists p h, handlers s !! nm = Some p /\ heap s !! p = Some h /\
                  st = state_String (state h).
Proof.
  intros H.
  destruct (run_listed _ _ _ _ H (NewHandlerSet_wf o w)
              (NewHandlerSet_listed o w)) as [Hwf _].
  unfold Dump.
  destruct (mapM _ (map_to_list (handlers s))) as [lines|] eqn:Hm.
  - exists lines. split; [done|].
    apply mapM_Some_1 in Hm.
    split.
    + rewrite <- (Forall2_length _ _ _ Hm). apply length_map_to_list.
    + intros nm st. split.
      * intros Hin.
        apply list_elem_of_lookup in Hin as [i Hi].
        destruct (Forall2_lookup_r _ _ _ _ _ Hm Hi) as ([k p] & Hk & Hf).
        simpl in Hf.
        destruct (heap s !! p) as [h|] eqn:Hp; [|done].
        injection Hf as <- <-.
        exists p, h. split_and!; [|done..].
        apply elem_of_map_to_list. by eapply list_elem_of_lookup_2.
      * intros (p & h & Hnm & Hp & ->).
        apply elem_of_map_to_list in Hnm.
        apply list_elem_of_lookup in Hnm as [i Hi].
        destruct (Forall2_lookup_l _ _ _ _ _ Hm Hi) as (y & Hy & Hf).
        simpl in Hf. rewrite Hp in Hf. injection Hf as <-.
        by eapply list_elem_of_lookup_2.
  - exfalso. apply mapM_None_1 in Hm.
    apply Exists_exists in Hm as ([k p] & Hin & Hf).
    apply elem_of_map_to_list in Hin.
    destruct (Hwf _ _ Hin) as (h & Hp & _).
    simpl in Hf. by rewrite Hp in Hf.
Qed.

(** ** [RunFinish] and [StopIfPaused] find a sandbox *)

(** X9. [RunFinish] calls pause on the sandbox when the count it decrements
    is 1, and [StopIfPaused] calls unpause on the sandbox when the state is
    [Paused]; both dereference nil if the handler has no sandbox.  After a
    run on a new registry that follows the callers' contract, a handler
    with a count of 1 has a sandbox and a [Paused] handler has a sandbox, so
    [RunFinish] and [StopIfPaused] on a handler of the heap return. *)
Theorem run_finds_sandbox o w ops es s p h :
  run ops (NewHandlerSet o w) = Some (es, s) ->
  follows_contract (fun _ => 0) es = true ->
  Z.of_nat (length ops) <= int_max ->
  heap s !! p = Some h ->
  (runners h = 1 -> sandbox h <> None) /\
  (state h = Paused -> sandbox h <> None) /\
  is_Some (step (ORunFinish p) s) /\
  is_Some (step (OStopIfPaused p) s).
Proof.
  intros Hrun Hc Hb Hp.
  pose proof (run_hinv _ _ _ _ _ _ _ Hrun Hc Hb Hp) as Hi.
  destruct (run_shape _ _ _ _ _ _ _ Hrun Hp) as [Hnone _].
  split_and!.
  - intros Hr Hsb. unfold hinv in Hi. destruct_and?. forward. lia.
  - intros Hst Hsb. specialize (Hnone Hsb). congruence.
  - apply (run_progress o w ops es s (ORunFinish p)); try done.
  - apply (run_progress o w ops es s (OStopIfPaused p)); try done.
Qed.

End Proofs.

(** * Concrete runs *)

Section Concrete.
Import Demo.

(** ** C1 *)

(** The directory is made, the sandbox is made and reports [Stopped], and
    start fails: [RunStart] returns the error, and the handler, which had no
    sandbox, keeps the fetch, the sandbox and the state [Stopped]. *)
Lemma RunStart_cold_failure_keeps_sandbox :
  let m := mkMem (fresh "f") (world_of (Some FStart) Stopped false) [] in
  sandbox (hd m) = None /\
  exists err m',
    RunStart plain 0 m = Some ((None, Some err), m') /\
    hd m' <> hd m /\
    state (hd m') = Stopped /\ sandbox (hd m') <> None /\
    lastPull (hd m') <> None.
Proof.
  simpl. split; [reflexivity|].
  eexists _, _. split; [vm_compute; reflexivity|].
  simpl. split_and!; first [reflexivity | discriminate].
Qed.

Lemma RunStart_cold_failure_witness :
  let w := world_of (Some FStart) Stopped false in
  let m := mkMem (fresh "f") w [] in
  let m1 := mkMem (stopped "f") w [] in
  let wq := world_of (Some FState) Running false in
  let sb := mkSandbox false 0 in
  let dir := "/tmp/worker/handlers/f/sandbox" in
  let h1 := mkHandler "f" None (Some 100) Unitialized 0 [] "/registry/f" in
  (exists err m' new,
     sandbox (hd m) = None /\
     RunStart plain 0 m = Some ((None, Some err), m') /\
     calls m' = calls m ++ new /\
     hd m' = stopped "f" /\
     cold_failure_outcome (hd m) (hd m') err (last new)) /\
  (lastPull (fresh "f") = None /\
   RunStart plain 0 (mkMem (fresh "f") (world_of (Some FPull) Stopped false) []) =
     Some ((None, Some (Foreign "fault")),
           mkMem (fresh "f") (world_of (Some FPull) Stopped false)
                 [(CPull "f", Some "fault")])) /\
  (sandbox (fresh "f") = None /\
   fetched (fresh "f") wq h1 (tick wq) [(CPull "f", None)] /\
   RunStart plain 0 (mkMem (fresh "f") wq []) =
     Some ((None, Some (Foreign "fault")),
           mkMem (set_state Running (set_sandbox (Some sb) h1))
                 (make (tick wq))
                 [(CPull "f", None); (CMkdirAll dir perm_0666, None);
                  (CCreate "/registry/f" dir, None);
                  (CState sb, Some "fault")])) /\
  lastPull (hd m1) <> None /\ sandbox (hd m1) <> None /\
  exists r m'' new',
    RunStart plain 0 m1 = Some (r, m'') /\
    calls m'' = calls m1 ++ new' /\
    made_sandbox new' = false /\ pulled new' = false.
Proof.
  simpl.
  destruct (RunStart_cold_failure (W:=World) plain 0)
    as (Ho & Hff & Hex & Hp & Hs).
  split.
  { eexists _, _, _.
    split; [reflexivity|]. split; [vm_compute; reflexivity|].
    split; [reflexivity|]. split; [reflexivity|].
    eapply (Ho (mkMem (fresh "f") (world_of (Some FStart) Stopped false) []));
      [reflexivity | vm_compute; reflexivity | reflexivity]. }
  split.
  { split; [reflexivity|].
    exact (Hff (fresh "f") (world_of (Some FPull) Stopped false) [] "fault"
               eq_refl eq_refl). }
  assert (Hfe : fetched (fresh "f") (world_of (Some FState) Running false)
                  (mkHandler "f" None (Some 100) Unitialized 0 [] "/registry/f")
                  (tick (world_of (Some FState) Running false))
                  [(CPull "f", None)]).
  { exists "/registry/f". split_and!; reflexivity. }
  split.
  { split; [reflexivity|]. split; [exact Hfe|].
    destruct (Hex (fresh "f") (world_of (Some FState) Running false) []
                _ _ _ eq_refl Hfe) as (_ & _ & Hc).
    destruct (Hc eq_refl (mkSandbox false 0) eq_refl) as (Hq & _).
    exact (Hq "fault" eq_refl). }
  split; [discriminate|]. split; [discriminate|].
  eexists _, _, _. split; [vm_compute; reflexivity|].
  split; [reflexivity|]. split.
  - eapply (Hs (mkMem (stopped "f") (world_of (Some FStart) Stopped false) []));
      [discriminate | vm_compute; reflexivity | reflexivity].
  - eapply (Hp (mkMem (stopped "f") (world_of (Some FStart) Stopped false) []));
      [discriminate | vm_compute; reflexivity | reflexivity].
Defined.

(** ** C2 *)

(** With a pool manager and a factory of plain sandboxes that report
    [Running], the first [RunStart] fails at the capability check and leaves
    the handler [Running] with no runner. *)
Lemma Running_without_runner :
  exists es s h,
    run [OGet "f"; ORunStart 0]
        (NewHandlerSet pooled (world_of None Running false)) = Some (es, s) /\
    follows_contract (fun _ => 0) es = true /\
    heap s !! 0%nat = Some h /\
    state h = Running /\ runners h = 0 /\
    ~ (state h = Running -> 1 <= runners h).
Proof.
  eexists _, _, _. split; [vm_compute; reflexivity|].
  split; [reflexivity|]. split; [reflexivity|].
  split; [reflexivity|]. split; [reflexivity|].
  simpl. intros Hc. specialize (Hc eq_refl). lia.
Qed.

(** The same world: after the failed [RunStart] the handler is marked; the
    second [RunStart] counts a runner and takes the mark off, and
    [RunFinish] pauses the handler. *)
Lemma runner_count_invariant_witness :
  (exists es s h,
     run [OGet "f"; ORunStart 0]
         (NewHandlerSet pooled (world_of None Running false)) = Some (es, s) /\
     follows_contract (fun _ => 0) es = true /\
     heap s !! 0%nat = Some h /\ tainted 0 es = true /\
     (0 <= runners h /\
      (0 < runners h -> state h = Running) /\
      (tainted 0 es = false ->
         (state h = Running -> 1 <= runners h) /\
         (runners h = 0 ->
            state h = Paused \/ state h = Stopped \/ state h = Unitialized)) /\
      (tainted 0 es = true ->
         state h = Running /\ runners h = 0 /\ sandbox h <> None))) /\
  (exists es s h,
     run [OGet "f"; ORunStart 0; ORunStart 0; ORunFinish 0]
         (NewHandlerSet pooled (world_of None Running false)) = Some (es, s) /\
     follows_contract (fun _ => 0) es = true /\
     heap s !! 0%nat = Some h /\ tainted 0 es = false /\
     state h = Paused /\ runners h = 0 /\
     (0 <= runners h /\
      (0 < runners h -> state h = Running) /\
      (tainted 0 es = false ->
         (state h = Running -> 1 <= runners h) /\
         (runners h = 0 ->
            state h = Paused \/ state h = Stopped \/ state h = Unitialized)) /\
      (tainted 0 es = true ->
         state h = Running /\ runners h = 0 /\ sandbox h <> None))).
Proof.
  split.
  - eexists _, _, _. split; [vm_compute; reflexivity|].
    split; [reflexivity|]. split; [reflexivity|]. split; [reflexivity|].
    eapply (runner_count_invariant (W:=World) pooled
              (world_of None Running false) [OGet "f"; ORunStart 0]);
      [vm_compute; reflexivity | reflexivity | vm_compute; discriminate
      | reflexivity].
  - eexists _, _, _. split; [vm_compute; reflexivity|].
    split; [reflexivity|]. split; [reflexivity|]. split; [reflexivity|].
    split; [reflexivity|]. split; [reflexivity|].
    eapply (runner_count_invariant (W:=World) pooled
              (world_of None Running false)
              [OGet "f"; ORunStart 0; ORunStart 0; ORunFinish 0]);
      [vm_compute; reflexivity | reflexivity | vm_compute; discriminate
      | reflexivity].
Defined.

(** ** C3 *)


(** ** C4 *)

Lemma RunFinish_last_runner_pauses_witness :
  let h := running "f" 1 in
  let w := world_of (Some FPause) Running false in
  sandbox h = Some sb0 /\ int_sub (runners h) 1 = 0 /\
  RunFinish 0 (mkMem h w []) =
    Some (tt, mkMem (paused "f") (lru_Add 0%nat w)
                    [(CPause sb0, Some "fault");
                     (CLog "Could not pause %v!  Error: %v\n" "f" "fault", None);
                     (CLruAdd 0, None)]).
Proof.
  simpl. split; [reflexivity|]. split; [reflexivity|].
  destruct (RunFinish_last_runner_pauses (W:=World) 0 (running "f" 1)
              (world_of (Some FPause) Running false) [] sb0 eq_refl)
    as (Hz & _ & _).
  exact (Hz eq_refl).
Defined.

(** ** C5 *)

Lemma StopIfPaused_only_when_Paused_witness :
  let w := world_of (Some FStop) Running false in
  state (running "f" 2) <> Paused /\
  StopIfPaused (mkMem (running "f" 2) w []) =
    Some (tt, mkMem (running "f" 2) w []) /\
  state (paused "f") = Paused /\ sandbox (paused "f") = Some sb0 /\
  StopIfPaused (mkMem (paused "f") w []) =
    Some (tt, mkMem (paused "f") w
                [(CUnpause sb0, None); (CStop sb0, Some "fault");
                 (CLog "Could not kill %v after unpausing!  Error: %v\n" "f" "fault", None)]) /\
  exists es s h,
    run [OGet "f"; ORunStart 0; ORunFinish 0]
        (NewHandlerSet plain (world_of None Stopped false)) = Some (es, s) /\
    heap s !! 0%nat = Some h /\ state h = Paused /\ is_Some (sandbox h).
Proof.
  simpl.
  destruct (StopIfPaused_only_when_Paused (W:=World)) as (Hn & Hp & Hr).
  split; [discriminate|]. split; [apply Hn; discriminate|].
  split; [reflexivity|]. split; [reflexivity|].
  split; [exact (Hp (paused "f") (world_of (Some FStop) Running false) []
                    sb0 eq_refl eq_refl)|].
  eexists _, _, _. split; [vm_compute; reflexivity|].
  split; [reflexivity|]. split; [reflexivity|].
  eapply (Hr plain (world_of None Stopped false)
             [OGet "f"; ORunStart 0; ORunFinish 0] _ _ 0%nat);
    [vm_compute; reflexivity | reflexivity | reflexivity].
Defined.

(** ** C6 *)

Lemma RunStart_resumes_Paused_witness :
  let h := paused "f" in
  let w := set_idle [0%nat] (world_of None Stopped false) in
  sandbox h = Some sb0 /\ state h = Paused /\ lastPull h = Some 100 /\
  RunStart plain 0 (mkMem h w []) =
    Some ((Some "channel", None),
          mkMem (running "f" 1) (world_of None Stopped false)
                [(CUnpause sb0, None); (CLruRemove 0, None);
                 (CChannel sb0, None)]) /\
  exists es s h',
    run [OGet "f"; ORunStart 0; ORunFinish 0]
        (NewHandlerSet plain (world_of None Stopped false)) = Some (es, s) /\
    heap s !! 0%nat = Some h' /\ is_Some (sandbox h') /\
    is_Some (lastPull h').
Proof.
  simpl.
  destruct (RunStart_resumes_Paused (W:=World)) as (Hp & _ & Hr).
  split; [reflexivity|]. split; [reflexivity|]. split; [reflexivity|].
  split; [exact (Hp plain 0%nat (paused "f")
                    (set_idle [0%nat] (world_of None Stopped false)) []
                    sb0 100 eq_refl eq_refl eq_refl)|].
  eexists _, _, _. split; [vm_compute; reflexivity|].
  split; [reflexivity|]. split; [by eexists|].
  eapply (Hr plain (world_of None Stopped false)
             [OGet "f"; ORunStart 0; ORunFinish 0] _ _ 0%nat);
    [vm_compute; reflexivity | reflexivity | by eexists].
Defined.

(** ** C7 *)

(** With a pool manager and a factory of plain sandboxes: the sandbox is
    made and reports [Stopped], and start fails.  [RunStart] took the
    creation path, and its error is the one of start, not the capability
    error. *)
Lemma RunStart_start_error_not_capability :
  let m := mkMem (fresh "f") (world_of (Some FStart) Stopped false) [] in
  exists err m' new sb,
    RunStart pooled 0 m = Some ((None, Some err), m') /\
    calls m' = calls m ++ new /\
    sandbox (hd m) = None /\ PoolMgr pooled = true /\
    queried new = Some sb /\ sandbox (hd m') = Some sb /\
    sb_container sb = false /\
    err <> capability_mismatch.
Proof.
  simpl. eexists _, _, _, _. split; [vm_compute; reflexivity|].
  split; [reflexivity|]. split_and!; first [reflexivity | discriminate].
Qed.

Lemma RunStart_capability_check_witness :
  let m := mkMem (fresh "f") (world_of None Stopped false) [] in
  let sb := mkSandbox false 0 in
  let dir := "/tmp/worker/handlers/f/sandbox" in
  exists m' new,
    RunStart pooled 0 m = Some ((None, Some capability_mismatch), m') /\
    calls m' = calls m ++ new /\
    new = [(CPull "f", None); (CMkdirAll dir perm_0666, None);
           (CCreate "/registry/f" dir, None); (CState sb, None);
           (CStart sb, None)] /\
    state (hd m') = Stopped /\
    (Some capability_mismatch = Some capability_mismatch <->
       sandbox (hd m) = None /\ PoolMgr pooled = true /\
       exists sb, stopped_at_check pooled (hd m) (hd m') new sb /\
                  sb_container sb = false) /\
    (sandbox (hd m) = None -> PoolMgr pooled = true ->
     forall sb, reached_check new sb -> sb_container sb = false ->
     Some capability_mismatch = Some capability_mismatch) /\
    (forall sb, reached_check new sb -> PoolMgr pooled = true ->
       sb_container sb = true ->
       forked new = Some sb /\
       Some capability_mismatch <> Some capability_mismatch) /\
    (PoolMgr pooled = false ->
       Some capability_mismatch <> Some capability_mismatch /\
       forked new = None).
Proof.
  simpl. eexists _, _. split; [vm_compute; reflexivity|].
  split; [reflexivity|]. split; [reflexivity|]. split; [reflexivity|].
  eapply (RunStart_capability_check (W:=World) pooled 0
            (mkMem (fresh "f") (world_of None Stopped false) []));
    [vm_compute; reflexivity | reflexivity].
Defined.

(** ** C8 *)

Lemma RunStart_fetches_code_once_witness :
  let w := world_of (Some FPull) Stopped false in
  lastPull (fresh "f") = None /\
  regMgr_Pull "f" w = (fail "fault", w) /\
  RunStart plain 0 (mkMem (fresh "f") w []) =
    Some ((None, Some (Foreign "fault")),
          mkMem (fresh "f") w [(CPull "f", Some "fault")]) /\
  lastPull (paused "f") = Some 100 /\
  exists m',
    invoke_all plain 0 [MRunStart; MRunFinish; MStopIfPaused; MRunStart]
               (mkMem (paused "f") (world_of None Stopped false) [])
    = Some (tt, m') /\
    lastPull (hd m') = Some 100 /\ codeDir (hd m') = codeDir (paused "f") /\
    exists new, calls m' = [] ++ new /\ pulled new = false.
Proof.
  simpl.
  destruct (RunStart_fetches_code_once (W:=World) plain 0 (fresh "f")
              (world_of (Some FPull) Stopped false) []) as (Hf & _ & _).
  destruct (RunStart_fetches_code_once (W:=World) plain 0 (paused "f")
              (world_of None Stopped false) []) as (_ & _ & Hk).
  split; [reflexivity|]. split; [reflexivity|].
  split; [exact (Hf _ _ eq_refl eq_refl)|]. split; [reflexivity|].
  eexists. split; [vm_compute; reflexivity|].
  apply (Hk 100 [MRunStart; MRunFinish; MStopIfPaused; MRunStart]);
    [reflexivity | vm_compute; reflexivity].
Defined.

(** ** C9 *)

Lemma RunStart_after_stop_reuses_sandbox_witness :
  let h := paused "f" in
  let w := world_of None Stopped false in
  let m1 := mkMem (set_state Stopped h) w
                  [(CUnpause sb0, None); (CStop sb0, None)] in
  state h = Paused /\ sandbox h = Some sb0 /\ lastPull h = Some 100 /\
  StopIfPaused (mkMem h w []) = Some (tt, m1) /\
  sandbox (hd m1) = Some sb0 /\
  RunStart plain 0 m1 =
    Some ((Some "channel", None),
          mkMem (running "f" 1) w
                [(CUnpause sb0, None); (CStop sb0, None);
                 (CChannel sb0, None)]).
Proof.
  simpl.
  destruct (RunStart_after_stop_reuses_sandbox (W:=World)) as (Hp & _).
  split; [reflexivity|]. split; [reflexivity|]. split; [reflexivity|].
  exact (Hp plain 0%nat (paused "f") (world_of None Stopped false) [] sb0 100
            _ _ eq_refl eq_refl eq_refl eq_refl eq_refl).
Defined.

(** ** C10 *)

Lemma RunStart_channel_failure_leaks_witness :
  let m := mkMem (paused "f") (world_of (Some FChannel) Stopped false) [] in
  exists m' new,
    RunStart plain 0 m = Some ((None, Some (Foreign "fault")), m') /\
    calls m' = calls m ++ new /\
    last new = Some (CChannel sb0, Some "fault") /\
    (Some (Foreign "fault") = Some (Foreign "fault") /\
     state (hd m') = Running /\
     runners (hd m') = int_add (runners (hd m)) 1) /\
  exists es s h,
    run [OGet "f"; ORunStart 0; ORunStart 0]
        (NewHandlerSet plain (world_of (Some FChannel) Stopped false))
      = Some (es, s) /\
    follows_contract (fun _ => 0) es = true /\
    heap s !! 0%nat = Some h /\
    leaks 0 es = 2 /\
    (runners h = pending (fun _ => 0) es 0%nat + leaks 0 es /\
     0 <= pending (fun _ => 0) es 0%nat /\ 0 <= leaks 0 es /\
     (0 < leaks 0 es -> state h = Running)).
Proof.
  simpl.
  destruct (RunStart_channel_failure_leaks (W:=World)) as (Hc & _ & Hr).
  eexists _, _. split; [vm_compute; reflexivity|].
  split; [reflexivity|]. split; [reflexivity|].
  split.
  { eapply (Hc plain 0%nat
              (mkMem (paused "f") (world_of (Some FChannel) Stopped false) []));
      [vm_compute; reflexivity | reflexivity | reflexivity]. }
  eexists _, _, _. split; [vm_compute; reflexivity|].
  split; [reflexivity|]. split; [reflexivity|]. split; [reflexivity|].
  eapply (Hr plain (world_of (Some FChannel) Stopped false)
            [OGet "f"; ORunStart 0; ORunStart 0]);
    [vm_compute; reflexivity | reflexivity | vm_compute; discriminate
    | reflexivity].
Defined.

(** ** X1 *)

(** A new handler of a pooled registry, whose new sandbox reports
    [Stopped]: six calls, the sandbox registered for fork-enter, one
    runner. *)
Lemma RunStart_cold_success_witness :
  let w := world_of None Stopped true in
  let sb := mkSandbox true 0 in
  let dir := "/tmp/worker/handlers/f/sandbox" in
  lastPull (fresh "f") = None /\ sandbox (fresh "f") = None /\
  RunStart pooled 0 (mkMem (fresh "f") w []) =
    Some ((Some "channel", None),
          mkMem (mkHandler "f" (Some sb) (Some 100) Running 1 [] "/registry/f")
                (fork sb (make (tick w)))
                [(CPull "f", None); (CMkdirAll dir perm_0666, None);
                 (CCreate "/registry/f" dir, None); (CState sb, None);
                 (CStart sb, None); (CForkEnter sb, None);
                 (CChannel sb, None)]).
Proof.
  simpl. split; [reflexivity|]. split; [reflexivity|].
  exact (RunStart_cold_success (W:=World) pooled 0%nat (fresh "f")
           (world_of None Stopped true) [] "/registry/f"
           (world_of None Stopped true) (tick (world_of None Stopped true))
           (mkSandbox true 0) (make (tick (world_of None Stopped true)))
           Stopped (make (tick (world_of None Stopped true)))
           eq_refl eq_refl eq_refl eq_refl eq_refl eq_refl eq_refl
           (fun _ => eq_refl)).
Defined.

(** ** X2 *)

Lemma RunStart_RunFinish_round_trip_witness :
  let w := world_of None Stopped false in
  (sandbox (running "f" 1) = Some sb0 /\ 1 <= runners (running "f" 1) < int_max /\
   bind (RunStart plain 0) (fun _ => RunFinish 0) (mkMem (running "f" 1) w []) =
     Some (tt, mkMem (running "f" 1) w [(CChannel sb0, None)])) /\
  (state (paused "f") = Paused /\ runners (paused "f") = 0 /\
   bind (RunStart plain 0) (fun _ => RunFinish 0) (mkMem (paused "f") w []) =
     Some (tt, mkMem (paused "f") (set_idle [0%nat] w)
                 [(CUnpause sb0, None); (CLruRemove 0, None);
                  (CChannel sb0, None); (CPause sb0, None);
                  (CLruAdd 0, None)])) /\
  (state (stopped "f") <> Paused /\ runners (stopped "f") = 0 /\
   bind (RunStart plain 0) (fun _ => RunFinish 0) (mkMem (stopped "f") w []) =
     Some (tt, mkMem (paused "f") (set_idle [0%nat] w)
                 [(CChannel sb0, None); (CPause sb0, None);
                  (CLruAdd 0, None)])) /\
  (bind (RunStart plain 0) (fun _ => RunFinish 0)
        (mkMem (paused "f") (world_of (Some FUnpause) Stopped false) []) =
     Some (tt, mkMem (set_runners (-1) (paused "f"))
                     (world_of (Some FUnpause) Stopped false)
                     [(CUnpause sb0, Some "fault")])).
Proof.
  simpl.
  assert (Hb : 1 <= 1 < int_max) by (unfold int_max; lia).
  assert (Hst : Stopped <> Paused) by discriminate.
  split; [split; [reflexivity|]; split; [exact Hb|]|].
  { exact (proj1 (RunStart_RunFinish_round_trip (W:=World) plain 0%nat
                    (running "f" 1) (world_of None Stopped false) [] sb0 100
                    eq_refl eq_refl) eq_refl Hb). }
  split; [split; [reflexivity|]; split; [reflexivity|]|].
  { exact (proj1 (proj2 (RunStart_RunFinish_round_trip (W:=World) plain 0%nat
                    (paused "f") (world_of None Stopped false) [] sb0 100
                    eq_refl eq_refl)) eq_refl eq_refl eq_refl). }
  split; [split; [exact Hst|]; split; [reflexivity|]|].
  { exact (proj1 (proj2 (proj2 (RunStart_RunFinish_round_trip (W:=World)
                    plain 0%nat
                    (stopped "f") (world_of None Stopped false) [] sb0 100
                    eq_refl eq_refl))) Hst eq_refl). }
  exact (proj2 (proj2 (proj2 (RunStart_RunFinish_round_trip (W:=World)
                  plain 0%nat
                  (paused "f") (world_of (Some FUnpause) Stopped false) []
                  sb0 100 eq_refl eq_refl))) eq_refl eq_refl "fault" eq_refl).
Defined.

(** ** X3 *)

Lemma RunStart_counts_each_call_witness :
  let h := running "f" 1 in
  let w := world_of None Stopped false in
  (sandbox h = Some sb0 /\ lastPull h = Some 100 /\ state h <> Paused /\
   int_min <= runners h /\ runners h + Z.of_nat 3 <= int_max) /\
  exists m' new,
    invoke_all plain 0 (replicate 3 MRunStart) (mkMem h w []) = Some (tt, m') /\
    calls m' = [] ++ new /\
    length new = 3%nat /\ Forall (fun ce => ce.1 = CChannel sb0) new /\
    runners (hd m') = runners h + Z.of_nat 3 /\
    sandbox (hd m') = Some sb0 /\
    (3%nat <> 0%nat -> state (hd m') = Running).
Proof.
  simpl.
  assert (Hst : Running <> Paused) by discriminate.
  assert (Hlo : int_min <= 1) by (unfold int_min; lia).
  assert (Hhi : 1 + Z.of_nat 3 <= int_max) by (unfold int_max; lia).
  split; [split_and!; try reflexivity; assumption|].
  exact (RunStart_counts_each_call (W:=World) plain 0%nat 3 (running "f" 1)
           (world_of None Stopped false) [] sb0 100 eq_refl eq_refl
           Hst Hlo Hhi).
Defined.

(** ** X4 *)

Lemma methods_call_footprint_witness :
  let w := world_of (Some FPause) Stopped false in
  (exists r m' new,
     RunStart plain 0 (mkMem (fresh "f") w []) = Some (r, m') /\
     calls m' = [] ++ new /\ length new = 6%nat /\
     only_calls RunStart_calls new = true) /\
  (exists m' new,
     RunFinish 0 (mkMem (running "f" 1) w []) = Some (tt, m') /\
     calls m' = [] ++ new /\ length new = 3%nat /\
     only_calls RunFinish_calls new = true) /\
  (exists m' new,
     StopIfPaused (mkMem (paused "f") w []) = Some (tt, m') /\
     calls m' = [] ++ new /\ length new = 2%nat /\
     only_calls StopIfPaused_calls new = true).
Proof.
  simpl.
  destruct (methods_call_footprint (W:=World)) as (Hs & Hf & Hp).
  split_and!.
  - eexists _, _, _. split; [vm_compute; reflexivity|].
    split; [reflexivity|]. split; [reflexivity|].
    eapply (Hs plain 0%nat
              (mkMem (fresh "f") (world_of (Some FPause) Stopped false) []));
      [vm_compute; reflexivity | reflexivity].
  - eexists _, _. split; [vm_compute; reflexivity|].
    split; [reflexivity|]. split; [reflexivity|].
    eapply (Hf 0%nat
              (mkMem (running "f" 1) (world_of (Some FPause) Stopped false) []));
      [vm_compute; reflexivity | reflexivity].
  - eexists _, _. split; [vm_compute; reflexivity|].
    split; [reflexivity|]. split; [reflexivity|].
    eapply (Hp (mkMem (paused "f") (world_of (Some FPause) Stopped false) []));
      [vm_compute; reflexivity | reflexivity].
Defined.

(** ** X5 *)

Lemma sandbox_made_once_witness :
  let w := world_of None Stopped false in
  let mts := [MRunStart; MRunFinish; MStopIfPaused; MRunStart; MRunStart] in
  (exists m',
     invoke_all plain 0 mts (mkMem (fresh "f") w []) = Some (tt, m') /\
     exists new, calls m' = [] ++ new /\ creates new = 1%nat) /\
  (exists m',
     invoke_all plain 0 mts (mkMem (paused "f") w []) = Some (tt, m') /\
     exists new,
       calls m' = [] ++ new /\ sandbox (hd m') = Some sb0 /\
       creates new = 0%nat /\ made_sandbox new = false /\
       Sandbox_of m' = Some (Some sb0, m')).
Proof.
  simpl. split.
  - eexists. split; [vm_compute; reflexivity|].
    eapply (sandbox_made_once (W:=World) plain 0%nat
              [MRunStart; MRunFinish; MStopIfPaused; MRunStart; MRunStart]
              (mkMem (fresh "f") (world_of None Stopped false) [])).
    vm_compute; reflexivity.
  - eexists. split; [vm_compute; reflexivity|].
    eapply (sandbox_made_once (W:=World) plain 0%nat
              [MRunStart; MRunFinish; MStopIfPaused; MRunStart; MRunStart]
              (mkMem (paused "f") (world_of None Stopped false) [])).
    vm_compute; reflexivity.
Defined.

(** ** X6 *)

Lemma registry_bijection_witness :
  exists es s,
    run [OGet "f"; ORunStart 0; OGet "g"; OGet "f"; ORunFinish 0]
        (NewHandlerSet plain (world_of None Stopped false)) = Some (es, s) /\
    length (heap s) = 2%nat /\
    (forall nm,
       is_Some (handlers s !! nm) <->
       OGet nm ∈ [OGet "f"; ORunStart 0; OGet "g"; OGet "f"; ORunFinish 0]) /\
    (forall nm p,
       handlers s !! nm = Some p <->
       exists h, heap s !! p = Some h /\ name h = nm) /\
    length (heap s) = size (handlers s).
Proof.
  eexists _, _. split; [vm_compute; reflexivity|].
  split; [reflexivity|].
  eapply (registry_bijection (W:=World) plain (world_of None Stopped false)
            [OGet "f"; ORunStart 0; OGet "g"; OGet "f"; ORunFinish 0]).
  vm_compute; reflexivity.
Defined.

(** ** X7 *)

Lemma Dump_lists_handlers_witness :
  let state_String := fun st =>
    match st with
    | Unitialized => "Unitialized" | Stopped => "Stopped"
    | Paused => "Paused" | Running => "Running"
    end in
  exists es s,
    run [OGet "f"; ORunStart 0; OGet "g"]
        (NewHandlerSet plain (world_of None Stopped false)) = Some (es, s) /\
    size (handlers s) = 2%nat /\
    exists lines,
      Dump state_String s = Some (("HANDLERS:\n", []) :: lines) /\
      length lines = size (handlers s) /\
      forall nm st,
        ("> %v: %v\n", [nm; st]) ∈ lines <->
        exists p h, handlers s !! nm = Some p /\ heap s !! p = Some h /\
                    st = state_String (state h).
Proof.
  simpl. eexists _, _. split; [vm_compute; reflexivity|].
  split; [vm_compute; reflexivity|].
  eapply (Dump_lists_handlers (W:=World)
            (fun st => match st with
                       | Unitialized => "Unitialized" | Stopped => "Stopped"
                       | Paused => "Paused" | Running => "Running"
                       end)
            plain (world_of None Stopped false)
            [OGet "f"; ORunStart 0; OGet "g"]).
  vm_compute; reflexivity.
Defined.

(** ** X9 *)

Lemma run_finds_sandbox_witness :
  exists es s h,
    run [OGet "f"; ORunStart 0; ORunStart 0; ORunFinish 0]
        (NewHandlerSet plain (world_of None Stopped false)) = Some (es, s) /\
    follows_contract (fun _ => 0) es = true /\
    heap s !! 0%nat = Some h /\ runners h = 1 /\
    (runners h = 1 -> sandbox h <> None) /\
    (state h = Paused -> sandbox h <> None) /\
    is_Some (step (ORunFinish 0) s) /\
    is_Some (step (OStopIfPaused 0) s).
Proof.
  eexists _, _, _. split; [vm_compute; reflexivity|].
  split; [reflexivity|]. split; [reflexivity|]. split; [reflexivity|].
  eapply (run_finds_sandbox (W:=World) plain (world_of None Stopped false)
            [OGet "f"; ORunStart 0; ORunStart 0; ORunFinish 0]);
    [vm_compute; reflexivity | reflexivity | vm_compute; discriminate
    | reflexivity].
Defined.

End Concrete.
